(** * socket-app: the chat relay of [server.js], embedded and verified

    The server keeps five process-wide [Map]s ([activeChats],
    [connectedAgents], [socketOrigins], [chatLastActivity],
    [chatSaveTimers]) and reacts to Socket.IO events.  Every handler is
    embedded as a function from the state before the event to the state
    after it together with the list of observable effects (emitted
    events, console lines, I/O requests) in program order.

    Chat objects are shared and mutated in place: [activeChats] holds
    references, and the record handed to the persistence layer keeps a
    reference to the chat's [messages] array.  The embedding therefore
    has an object store [heap] and [activeChats] maps ids to locations.

    Values that the program obtains from its environment are inputs of
    the embedding: [Date.now()], [new Date().toISOString()], the result
    of [generateShortId], the environment variables and the way each
    awaited promise settles.

    Conventions.  Payload fields are strings or [undefined].  A loop
    over a [Map] visits the entries in the order of [map_to_list]; no
    statement below depends on that order.  [saveChatToDatabase] is
    embedded twice: as a coroutine ([save_begin], [save_resume]) that
    can be interleaved with inbound events ([run_during_save]), and as
    the function one gets when nothing else runs while it is suspended;
    [save_call_uninterrupted] relates the two.  The asynchronous
    handlers, the timer callback and the periodic sweep use the second
    form. *)

From Stdlib Require Import ZArith String List Ascii DecimalString DecimalZ.
From stdpp Require Import base option list gmap strings fin_maps.

Local Open Scope Z_scope.
Local Open Scope string_scope.
Local Open Scope list_scope.

(** ** JavaScript values *)

(** Payload fields and optional object fields are strings or
    [undefined]; [None] stands for [undefined]. *)
Abbreviation jsval := (option string).

(** JavaScript truthiness on these values: [undefined] and the empty
    string are falsy. *)
Definition truthy (v : jsval) : bool :=
  match v with
  | Some s => negb (String.eqb s "")
  | None => false
  end.

(** [a || b] where [b] is a string. *)
Definition or_else (a : jsval) (b : string) : string :=
  match a with
  | Some s => if String.eqb s "" then b else s
  | None => b
  end.

(** [a || b] where [b] may itself be [undefined]. *)
Definition js_or (a b : jsval) : jsval :=
  if truthy a then a else b.

(** [arr[i]] for an integer index: [undefined] outside the array. *)
Definition js_index {A} (arr : list A) (i : Z) : option A :=
  if Z.ltb i 0 then None else arr !! Z.to_nat i.

(** [arr.findIndex(p)]: the first index whose element satisfies [p],
    [-1] when there is none. *)
Fixpoint findIndex_from {A} (p : A → bool) (arr : list A) (i : Z) : Z :=
  match arr with
  | [] => -1
  | x :: rest => if p x then i else findIndex_from p rest (i + 1)
  end.

Definition findIndex {A} (p : A → bool) (arr : list A) : Z :=
  findIndex_from p arr 0.

(** [arr.slice(start)] for [start >= 0]. *)
Definition slice_from {A} (arr : list A) (start : Z) : list A :=
  drop (Z.to_nat start) arr.

(** ** Configuration *)

Definition AUTOSAVE_INTERVAL : Z := 5 * 60 * 1000.
Definition INACTIVITY_SAVE_DELAY : Z := 2 * 60 * 1000.

(** The agent origins used when [process.env.AGENT_ORIGINS] is unset. *)
Definition default_AGENT_ORIGINS : list string :=
  ["https://fantickets.cloud/design/agent-panel"].

(** ** Data model *)

Record message := Message {
  m_id : string;
  m_content : jsval;
  m_sender : string;
  m_senderName : jsval;
  m_time : string;
}.

Record chat := Chat {
  chatroom_id : string;
  userId : jsval;
  userName : jsval;
  userEmail : string;
  userPhone : string;
  userIp : string;
  messages : list message;
  createdAt : string;
  socketId : string;
  agent : jsval;
}.

Record agent_conn := AgentConn {
  ac_agentId : jsval;
  ac_agentName : jsval;
  ac_socketId : string;
  ac_origin : jsval;
  ac_connectedAt : string;
}.

(** Object references. *)
Abbreviation loc := positive.

(** A pending [setTimeout]: the chat id captured by the callback and the
    delay it was armed with. *)
Record timeout := Timeout {
  t_chatId : string;
  t_delay : Z;
}.

Record state := State {
  heap : gmap loc chat;
  activeChats : gmap string loc;
  connectedAgents : gmap string agent_conn;
  socketOrigins : gmap string jsval;
  chatLastActivity : gmap string Z;
  chatSaveTimers : gmap string nat;
  timers : gmap nat timeout;
  next_timer : nat;
}.

Definition initial_state : state :=
  State ∅ ∅ ∅ ∅ ∅ ∅ ∅ 0.

Definition set_heap (h : gmap loc chat) (st : state) : state :=
  State h (activeChats st) (connectedAgents st) (socketOrigins st)
        (chatLastActivity st) (chatSaveTimers st) (timers st) (next_timer st).

Definition set_activeChats (a : gmap string loc) (st : state) : state :=
  State (heap st) a (connectedAgents st) (socketOrigins st)
        (chatLastActivity st) (chatSaveTimers st) (timers st) (next_timer st).

Definition set_connectedAgents (a : gmap string agent_conn) (st : state) : state :=
  State (heap st) (activeChats st) a (socketOrigins st)
        (chatLastActivity st) (chatSaveTimers st) (timers st) (next_timer st).

Definition set_socketOrigins (o : gmap string jsval) (st : state) : state :=
  State (heap st) (activeChats st) (connectedAgents st) o
        (chatLastActivity st) (chatSaveTimers st) (timers st) (next_timer st).

Definition set_chatLastActivity (a : gmap string Z) (st : state) : state :=
  State (heap st) (activeChats st) (connectedAgents st) (socketOrigins st)
        a (chatSaveTimers st) (timers st) (next_timer st).

Definition set_chatSaveTimers (t : gmap string nat) (st : state) : state :=
  State (heap st) (activeChats st) (connectedAgents st) (socketOrigins st)
        (chatLastActivity st) t (timers st) (next_timer st).

Definition set_timers (t : gmap nat timeout) (n : nat) (st : state) : state :=
  State (heap st) (activeChats st) (connectedAgents st) (socketOrigins st)
        (chatLastActivity st) (chatSaveTimers st) t n.

(** [activeChats.get(chatId)]: the reference and the object behind it. *)
Definition get_chat (st : state) (chatId : string) : option (loc * chat) :=
  l ← activeChats st !! chatId; c ← heap st !! l; Some (l, c).

(** In-place mutation of the object at [l]. *)
Definition store (l : loc) (c : chat) (st : state) : state :=
  set_heap (<[l := c]> (heap st)) st.

Definition set_messages (ms : list message) (c : chat) : chat :=
  Chat (chatroom_id c) (userId c) (userName c) (userEmail c) (userPhone c)
       (userIp c) ms (createdAt c) (socketId c) (agent c).

Definition set_agent (a : jsval) (c : chat) : chat :=
  Chat (chatroom_id c) (userId c) (userName c) (userEmail c) (userPhone c)
       (userIp c) (messages c) (createdAt c) (socketId c) a.

Definition set_user_info (n : jsval) (e p : string) (c : chat) : chat :=
  Chat (chatroom_id c) (userId c) n e p
       (userIp c) (messages c) (createdAt c) (socketId c) (agent c).

(** The messages array currently behind a reference. *)
Definition read_messages (h : gmap loc chat) (l : loc) : list message :=
  from_option messages [] (h !! l).

(** ** Persistence records *)

(** [chatData] as built by [saveChatToDatabase]: scalar fields are
    copied, [messages] is the chat's own array (a reference). *)
Record chatData := ChatData {
  cd_chatroom_id : string;
  cd_agent_id : jsval;
  cd_user_id : jsval;
  cd_user_name : jsval;
  cd_user_email : string;
  cd_user_phone : string;
  cd_user_ip : string;
  cd_socket_id : string;
  cd_status : string;
  cd_last_message_at : string;
  cd_messages : loc;
}.

(** What [JSON.stringify(chatData)] writes: the same fields, with the
    array contents as they are when the call is made.  In [p_agent_id]
    [None] is JSON [null]. *)
Record persisted := Persisted {
  p_chatroom_id : string;
  p_agent_id : jsval;
  p_user_id : jsval;
  p_user_name : jsval;
  p_user_email : string;
  p_user_phone : string;
  p_user_ip : string;
  p_socket_id : string;
  p_status : string;
  p_last_message_at : string;
  p_messages : list message;
}.

Definition stringify (cd : chatData) (ms : list message) : persisted :=
  Persisted (cd_chatroom_id cd) (cd_agent_id cd) (cd_user_id cd)
            (cd_user_name cd) (cd_user_email cd) (cd_user_phone cd)
            (cd_user_ip cd) (cd_socket_id cd) (cd_status cd)
            (cd_last_message_at cd) ms.

(** The fallback file [saved_chats/${chatroom_id}_${Date.now()}.json]. *)
Record fallback_file := FallbackFile {
  ff_chatroom_id : string;
  ff_stamp : Z;
}.

Inductive save_result :=
  | SaveOk (chatId : string) (fallback : bool)
  | SaveFailed.

Definition success (r : save_result) : bool :=
  match r with SaveOk _ _ => true | SaveFailed => false end.

(** ** Observable effects *)

(** Where an emitted event goes: [socket.emit], [socket.broadcast.emit],
    [socket.to(room).emit] and [io.to(room).emit]. *)
Inductive target :=
  | ToSocket (sid : string)
  | BroadcastExcept (sid : string)
  | RoomExcept (room sid : string)
  | Room (room : string).

Inductive payload :=
  | IdentifiedAsAgent (origin : jsval)
  | ErrorMsg (msg : string)
  | ChatCreated (chatId : string)
  | NewChat (c : chat)
  | NewMessage (chatId : string) (m : message)
  | UserTyping (chatId : string)
  | UserStopTyping (chatId : string)
  | AgentTyping (chatId : string)
  | AgentStopTyping (chatId : string)
  | ActiveChats (cs : list chat)
  | AgentJoined (chatId : string) (name : jsval)
  | UserInfoUpdated (chatId : string) (name : jsval) (email phone : string)
  | MissedMessages (chatId : string) (ms : list message)
  | ChatSaved (chatId : string) (ok : bool) (err : jsval)
  | ChatClosed (chatId : string)
  | CustomerDisconnected (chatId : string) (name : jsval).

(** The console lines of the modelled functions, one constructor per
    message (the decorative prefix is dropped). *)
Inductive logline :=
  | LogSaving (chatId : string)
  | LogApiUrlMissing
  | LogSavedApi (chatId : string)
  | LogSaveApiError (chatId : string)
  | LogSavedFile (chatId : string)
  | LogFallbackFailed
  | LogAutoSaveInactivity (chatId : string)
  | LogAgentOriginDetected (origin : jsval)
  | LogNewConnection (sid : string) (origin : string)
  | LogAgentOriginBlocked (sid : string)
  | LogUserJoined (name uid : jsval)
  | LogChatCreated (chatId : string)
  | LogUserMessage (chatId : string) (content : jsval)
  | LogChatNotFound (chatId : string)
  | LogMessageSent (chatId : string)
  | LogUserTyping (chatId : string)
  | LogUserStopTyping (chatId : string)
  | LogUnauthorizedAgent (origin : jsval)
  | LogAgentJoined (name aid origin : jsval)
  | LogSentActiveChats (n : nat) (name : jsval)
  | LogAgentMessage (chatId : string) (content : jsval)
  | LogAgentMessageSent (chatId : string)
  | LogAgentTyping (chatId : string)
  | LogAgentStopTyping (chatId : string)
  | LogUpdatingUserInfo (chatId : string)
  | LogUserInfoUpdated (chatId : string)
  | LogRequestingMissed (chatId : string)
  | LogSentMissed (n : nat)
  | LogManualSave (chatId : string)
  | LogClosing (chatId : string)
  | LogClosed (chatId : string)
  | LogDisconnected (sid : string)
  | LogAgentDisconnected (name : jsval)
  | LogAutoSaveDisconnect (chatId : string)
  | LogUserDisconnected (chatId : string)
  | LogSweepRunning
  | LogSweepCompleted (n : nat).

(** Requests made to the outside world. *)
Inductive io_action :=
  | HttpPost (url : string) (bearer : jsval) (body : persisted)
  | Mkdir (dir : string)
  | WriteFile (f : fallback_file) (content : persisted).

Inductive output :=
  | Emit (t : target) (p : payload)
  | JoinRoom (sid room : string)
  | Log (l : logline)
  | Io (a : io_action).

(** ** The persist operation, [saveChatToDatabase] *)

(** How the awaited promises of one call settle, and the environment
    variables it reads.  [fetch_settles = None] is a rejected [fetch]
    (network error); [Some ok] is a response whose [ok] flag is [ok]. *)
Record io_env := IoEnv {
  CHAT_API_URL : jsval;
  CHAT_API_KEY : jsval;
  fetch_settles : option bool;
  json_settles : bool;
  import_fs_settles : bool;
  import_path_settles : bool;
  mkdir_settles : bool;
  writeFile_settles : bool;
  write_clock : Z;
}.

(** [process.env.CHAT_API_URL] when it is truthy. *)
Definition api_url (env : io_env) : option string :=
  match CHAT_API_URL env with
  | Some u => if String.eqb u "" then None else Some u
  | None => None
  end.

Definition lastMessageAt (c : chat) : string :=
  match js_index (messages c) (Z.of_nat (length (messages c)) - 1) with
  | Some lastMessage => m_time lastMessage
  | None => createdAt c
  end.

(** The synchronous prefix: [chatData] for the chat object at [l], whose
    current contents are [c]. *)
Definition build_chatData (l : loc) (c : chat) : chatData :=
  ChatData (chatroom_id c)
           (js_or (agent c) None)
           (userId c) (userName c) (userEmail c) (userPhone c)
           (userIp c) (socketId c)
           (if truthy (agent c) then "closed" else "pending")
           (lastMessageAt c)
           l.

(** The [Authorization] header: present only for a truthy key. *)
Definition bearer_of (env : io_env) : jsval :=
  if truthy (CHAT_API_KEY env) then CHAT_API_KEY env else None.

(** The call is a coroutine: it runs to its next [await], and is resumed
    when that promise settles.  A [save_task] names the [await] the call
    is suspended at. *)
Inductive save_task :=
  | AwaitFetch (cd : chatData)
  | AwaitJson (cd : chatData)
  | AwaitImportFs (cd : chatData)
  | AwaitImportPath (cd : chatData)
  | AwaitMkdir (cd : chatData)
  | AwaitWriteFile (cd : chatData)
  | Returned (r : save_result).

(** From the call to the first [await].  With no [CHAT_API_URL] the
    [throw] lands in the [catch], which suspends at the first dynamic
    [import]. *)
Definition save_begin (env : io_env) (l : loc) (c : chat)
  : save_task * list output :=
  let cd := build_chatData l c in
  match api_url env with
  | Some url =>
      (AwaitFetch cd,
       [Log (LogSaving (chatroom_id c));
        Io (HttpPost url (bearer_of env) (stringify cd (messages c)))])
  | None =>
      (AwaitImportFs cd,
       [Log (LogSaving (chatroom_id c)); Log LogApiUrlMissing;
        Log (LogSaveApiError (chatroom_id c))])
  end.

(** From one settled [await] to the next.  [h] is the object store at
    the moment of resumption; the fallback content is serialised here,
    from the array behind [cd_messages]. *)
Definition save_resume (env : io_env) (h : gmap loc chat)
    (t : save_task) : save_task * list output :=
  match t with
  | AwaitFetch cd =>
      match fetch_settles env with
      | Some true => (AwaitJson cd, [])
      | _ => (AwaitImportFs cd, [Log (LogSaveApiError (cd_chatroom_id cd))])
      end
  | AwaitJson cd =>
      if json_settles env
      then (Returned (SaveOk (cd_chatroom_id cd) false),
            [Log (LogSavedApi (cd_chatroom_id cd))])
      else (AwaitImportFs cd, [Log (LogSaveApiError (cd_chatroom_id cd))])
  | AwaitImportFs cd =>
      if import_fs_settles env
      then (AwaitImportPath cd, [])
      else (Returned SaveFailed, [Log LogFallbackFailed])
  | AwaitImportPath cd =>
      if import_path_settles env
      then (AwaitMkdir cd, [Io (Mkdir "saved_chats")])
      else (Returned SaveFailed, [Log LogFallbackFailed])
  | AwaitMkdir cd =>
      if mkdir_settles env
      then (AwaitWriteFile cd,
            [Io (WriteFile (FallbackFile (cd_chatroom_id cd) (write_clock env))
                           (stringify cd (read_messages h (cd_messages cd))))])
      else (Returned SaveFailed, [Log LogFallbackFailed])
  | AwaitWriteFile cd =>
      if writeFile_settles env
      then (Returned (SaveOk (cd_chatroom_id cd) true),
            [Log (LogSavedFile (cd_chatroom_id cd))])
      else (Returned SaveFailed, [Log LogFallbackFailed])
  | Returned r => (Returned r, [])
  end.

(** The local fallback, run without interruption: the [catch] block. *)
Definition save_fallback (env : io_env) (cd : chatData)
    (ms : list message) : save_result * list output :=
  if negb (import_fs_settles env) then (SaveFailed, [Log LogFallbackFailed])
  else if negb (import_path_settles env) then (SaveFailed, [Log LogFallbackFailed])
  else if negb (mkdir_settles env)
  then (SaveFailed, [Io (Mkdir "saved_chats"); Log LogFallbackFailed])
  else
    let w := Io (WriteFile (FallbackFile (cd_chatroom_id cd) (write_clock env))
                           (stringify cd ms)) in
    if writeFile_settles env
    then (SaveOk (cd_chatroom_id cd) true,
          [Io (Mkdir "saved_chats"); w; Log (LogSavedFile (cd_chatroom_id cd))])
    else (SaveFailed, [Io (Mkdir "saved_chats"); w; Log LogFallbackFailed]).

(** [await saveChatToDatabase(chat)] with no other event handled while
    it is suspended: the chat's array is the same at every step. *)
Definition saveChatToDatabase (env : io_env) (l : loc) (c : chat)
  : save_result * list output :=
  let cd := build_chatData l c in
  let id := chatroom_id c in
  let fallback pre :=
    let '(r, out) := save_fallback env cd (messages c) in (r, pre ++ out) in
  match api_url env with
  | None =>
      fallback [Log (LogSaving id); Log LogApiUrlMissing; Log (LogSaveApiError id)]
  | Some url =>
      let post := Io (HttpPost url (bearer_of env) (stringify cd (messages c))) in
      match fetch_settles env with
      | Some true =>
          if json_settles env
          then (SaveOk id false, [Log (LogSaving id); post; Log (LogSavedApi id)])
          else fallback [Log (LogSaving id); post; Log (LogSaveApiError id)]
      | _ => fallback [Log (LogSaving id); post; Log (LogSaveApiError id)]
      end
  end.

(** Resuming the coroutine once per store in [hs]: the stores are what
    the heap looks like each time a promise settles, so any interference
    by other handlers is a choice of [hs]. *)
Fixpoint save_resumes (env : io_env) (hs : list (gmap loc chat))
    (t : save_task) : save_task * list output :=
  match hs with
  | [] => (t, [])
  | h :: rest =>
      let '(t1, o1) := save_resume env h t in
      let '(t2, o2) := save_resumes env rest t1 in
      (t2, o1 ++ o2)
  end.

Definition save_call (env : io_env) (l : loc) (c : chat)
    (hs : list (gmap loc chat)) : save_task * list output :=
  let '(t0, o0) := save_begin env l c in
  let '(t, o) := save_resumes env hs t0 in
  (t, o0 ++ o).

(** ** The scheduler *)

Definition scheduleAutoSave (chatId : string) (st : state) : state :=
  match get_chat st chatId with
  | None => st
  | Some (_, c) =>
      if negb (truthy (agent c)) then st
      else
        let pending :=
          match chatSaveTimers st !! chatId with
          | Some old => delete old (timers st)
          | None => timers st
          end in
        let timer := next_timer st in
        set_chatSaveTimers (<[chatId := timer]> (chatSaveTimers st))
          (set_timers (<[timer := Timeout chatId INACTIVITY_SAVE_DELAY]> pending)
                      (S timer) st)
  end.

Definition updateChatActivity (now : Z) (chatId : string) (st : state) : state :=
  scheduleAutoSave chatId
    (set_chatLastActivity (<[chatId := now]> (chatLastActivity st)) st).

(** The callback of the timer with handle [timer], when the runtime
    fires it.  A handle that is not pending (cleared, or already fired)
    never fires.  The save is awaited without interruption. *)
Definition timer_fires (env : io_env) (timer : nat) (st : state)
  : state * list output :=
  match timers st !! timer with
  | None => (st, [])
  | Some t =>
      let chatId := t_chatId t in
      let st1 := set_timers (delete timer (timers st)) (next_timer st) st in
      let out :=
        match get_chat st1 chatId with
        | Some (l, currentChat) =>
            if Z.ltb 0 (Z.of_nat (length (messages currentChat)))
               && truthy (agent currentChat)
            then Log (LogAutoSaveInactivity (chatroom_id currentChat))
                 :: snd (saveChatToDatabase env l currentChat)
            else []
        | None => []
        end in
      (set_chatSaveTimers (delete chatId (chatSaveTimers st1)) st1, out)
  end.

(** One iteration of the periodic sweep's loop. *)
Definition sweep_visit (envs : string → io_env) (now : Z)
    (acc : state * list output * nat) (entry : string * loc)
  : state * list output * nat :=
  let '(st, out, savedCount) := acc in
  let '(chatId, l) := entry in
  match heap st !! l with
  | None => acc
  | Some c =>
      if negb (truthy (agent c)) then acc
      else
        let lastActivity := default 0 (chatLastActivity st !! chatId) in
        let inactiveTime := now - lastActivity in
        if Z.ltb 0 (Z.of_nat (length (messages c)))
           && Z.ltb AUTOSAVE_INTERVAL inactiveTime
        then
          (set_chatLastActivity (<[chatId := now]> (chatLastActivity st)) st,
           out ++ snd (saveChatToDatabase (envs chatId) l c),
           S savedCount)
        else acc
  end.

(** The [setInterval] callback.  [now] is the [Date.now()] read at its
    start; [envs] tells how the save of each chat settles.  The saves
    are awaited without interruption. *)
Definition periodic_sweep (envs : string → io_env) (now : Z) (st : state)
  : state * list output :=
  let '(st', out, savedCount) :=
    fold_left (sweep_visit envs now) (map_to_list (activeChats st))
              (st, [Log LogSweepRunning], O) in
  (st', out ++ match savedCount with
               | O => []
               | S _ => [Log (LogSweepCompleted savedCount)]
               end).

(** ** Connections and event payloads *)

(** A Socket.IO connection: its id and what the handshake carried. *)
Record socket := Socket {
  sock_id : string;
  hs_origin : jsval;
  hs_referer : jsval;
  hs_address : jsval;
}.

(** What the handler reads from its environment while it runs. *)
Record runtime := Runtime {
  gen_id : string;      (* generateShortId(...) *)
  iso_now : string;     (* new Date().toISOString() *)
  date_now : Z;         (* Date.now() *)
}.

Record user_join_data := UserJoinData {
  uj_userId : jsval;
  uj_userName : jsval;
  uj_userEmail : jsval;
  uj_userPhone : jsval;
}.

Record user_message_data := UserMessageData {
  um_chatId : string;
  um_content : jsval;
  um_sender : jsval;
}.

Record join_agent_data := JoinAgentData {
  ja_agentName : jsval;
  ja_agentId : jsval;
}.

Record agent_message_data := AgentMessageData {
  am_chatId : string;
  am_content : jsval;
  am_time : jsval;
  am_agentName : jsval;
}.

Record user_info_data := UserInfoData {
  ui_chatId : string;
  ui_userName : jsval;
  ui_userEmail : jsval;
  ui_userPhone : jsval;
}.

Record missed_data := MissedData {
  mm_chatId : string;
  mm_lastMessageId : jsval;
}.

(** [m.id === lastMessageId] *)
Definition id_is (lastMessageId : jsval) (m : message) : bool :=
  match lastMessageId with
  | Some i => String.eqb (m_id m) i
  | None => false
  end.

(** The replay computed by [request_missed_messages]. *)
Definition missedMessages (ms : list message) (lastMessageId : jsval)
  : list message :=
  let lastIndex := findIndex (id_is lastMessageId) ms in
  if Z.leb 0 lastIndex then slice_from ms (lastIndex + 1) else [].

Section Handlers.

Variable AGENT_ORIGINS : list string.

(** [AGENT_ORIGINS.some(a => origin && origin.startsWith(a))] *)
Definition is_agent_origin (origin : jsval) : bool :=
  existsb (λ agentOrigin,
             match origin with
             | Some o => truthy origin && String.prefix agentOrigin o
             | None => false
             end) AGENT_ORIGINS.

Definition origin_of (sk : socket) : jsval :=
  js_or (hs_origin sk) (hs_referer sk).

(** The [isAgentOrigin] constant of the connection's closure. *)
Definition isAgentOrigin (sk : socket) : bool :=
  is_agent_origin (origin_of sk).

Definition on_connection (sk : socket) (st : state) : state * list output :=
  let origin := origin_of sk in
  (set_socketOrigins (<[sock_id sk := origin]> (socketOrigins st)) st,
   (if isAgentOrigin sk
    then [Log (LogAgentOriginDetected origin);
          Emit (ToSocket (sock_id sk)) (IdentifiedAsAgent origin)]
    else [])
   ++ [Log (LogNewConnection (sock_id sk) (or_else origin "unknown"))]).

Definition user_join_chat (sk : socket) (rt : runtime) (data : user_join_data)
    (st : state) : state * list output :=
  if isAgentOrigin sk
  then (st,
        [Log (LogAgentOriginBlocked (sock_id sk));
         Emit (ToSocket (sock_id sk))
              (ErrorMsg "Agent origins cannot create user chats. Please use join_as_agent instead.")])
  else
    let chatId := gen_id rt in
    let newChat :=
      Chat chatId (uj_userId data) (uj_userName data)
           (or_else (uj_userEmail data) "") (or_else (uj_userPhone data) "")
           (or_else (hs_address sk) "unknown")
           [] (iso_now rt) (sock_id sk) None in
    let l := fresh (dom (heap st)) in
    (set_activeChats (<[chatId := l]> (activeChats st)) (store l newChat st),
     [Log (LogUserJoined (uj_userName data) (uj_userId data));
      JoinRoom (sock_id sk) chatId;
      Emit (ToSocket (sock_id sk)) (ChatCreated chatId);
      Emit (BroadcastExcept (sock_id sk)) (NewChat newChat);
      Log (LogChatCreated chatId)]).

Definition user_message (sk : socket) (rt : runtime) (data : user_message_data)
    (st : state) : state * list output :=
  let chatId := um_chatId data in
  match get_chat st chatId with
  | None =>
      (st, [Log (LogUserMessage chatId (um_content data));
            Log (LogChatNotFound chatId)])
  | Some (l, c) =>
      let message :=
        Message (gen_id rt) (um_content data) (or_else (um_sender data) "user")
                (userName c) (iso_now rt) in
      let c1 := set_messages (messages c ++ [message]) c in
      let st1 := store l c1 st in
      (if truthy (agent c1) then updateChatActivity (date_now rt) chatId st1
       else st1,
       [Log (LogUserMessage chatId (um_content data));
        Emit (Room chatId) (NewMessage chatId message);
        Log (LogMessageSent chatId)])
  end.

Definition user_typing (sk : socket) (chatId : string) (st : state)
  : state * list output :=
  (st, [Log (LogUserTyping chatId);
        Emit (RoomExcept chatId (sock_id sk)) (UserTyping chatId)]).

Definition user_stop_typing (sk : socket) (chatId : string) (st : state)
  : state * list output :=
  (st, [Log (LogUserStopTyping chatId);
        Emit (RoomExcept chatId (sock_id sk)) (UserStopTyping chatId)]).

Definition join_as_agent (sk : socket) (rt : runtime) (data : join_agent_data)
    (st : state) : state * list output :=
  let socketOrigin := mjoin (socketOrigins st !! sock_id sk) in
  let isAuthorizedOrigin := is_agent_origin socketOrigin in
  if negb isAuthorizedOrigin
  then (st,
        [Log (LogUnauthorizedAgent socketOrigin);
         Emit (ToSocket (sock_id sk))
              (ErrorMsg "Unauthorized: Agent connections must come from authorized domains")])
  else
    let chats :=
      omap (λ e : string * loc, heap st !! e.2) (map_to_list (activeChats st)) in
    (set_connectedAgents
       (<[sock_id sk := AgentConn (ja_agentId data) (ja_agentName data)
                                  (sock_id sk) socketOrigin (iso_now rt)]>
          (connectedAgents st)) st,
     [Log (LogAgentJoined (ja_agentName data) (ja_agentId data) socketOrigin);
      Emit (ToSocket (sock_id sk)) (ActiveChats chats);
      Log (LogSentActiveChats (length chats) (ja_agentName data))]).

Definition message_from_agent (sk : socket) (rt : runtime)
    (data : agent_message_data) (st : state) : state * list output :=
  let chatId := am_chatId data in
  let agentName := am_agentName data in
  match get_chat st chatId with
  | None =>
      (st, [Log (LogAgentMessage chatId (am_content data));
            Log (LogChatNotFound chatId)])
  | Some (l, c) =>
      let messageData :=
        Message (gen_id rt) (am_content data) "agent" agentName
                (or_else (am_time data) (iso_now rt)) in
      let c1 := set_messages (messages c ++ [messageData]) c in
      let unassigned := negb (truthy (agent c1)) in
      let c2 := if unassigned then set_agent agentName c1 else c1 in
      (updateChatActivity (date_now rt) chatId (store l c2 st),
       [Log (LogAgentMessage chatId (am_content data))]
       ++ (if unassigned
           then [Emit (RoomExcept chatId (sock_id sk)) (AgentJoined chatId agentName)]
           else [])
       ++ [Emit (Room chatId) (NewMessage chatId messageData);
           Log (LogAgentMessageSent chatId)])
  end.

Definition agent_typing (sk : socket) (chatId : string) (st : state)
  : state * list output :=
  (st, [Log (LogAgentTyping chatId);
        Emit (RoomExcept chatId (sock_id sk)) (AgentTyping chatId)]).

Definition agent_stop_typing (sk : socket) (chatId : string) (st : state)
  : state * list output :=
  (st, [Log (LogAgentStopTyping chatId);
        Emit (RoomExcept chatId (sock_id sk)) (AgentStopTyping chatId)]).

Definition update_user_info (sk : socket) (data : user_info_data) (st : state)
  : state * list output :=
  let chatId := ui_chatId data in
  match get_chat st chatId with
  | None => (st, [Log (LogUpdatingUserInfo chatId)])
  | Some (l, c) =>
      let c1 :=
        set_user_info (js_or (ui_userName data) (userName c))
                      (or_else (ui_userEmail data) (userEmail c))
                      (or_else (ui_userPhone data) (userPhone c)) c in
      (store l c1 st,
       [Log (LogUpdatingUserInfo chatId);
        Emit (BroadcastExcept (sock_id sk))
             (UserInfoUpdated chatId (userName c1) (userEmail c1) (userPhone c1));
        Log (LogUserInfoUpdated chatId)])
  end.

Definition request_missed_messages (sk : socket) (data : missed_data)
    (st : state) : state * list output :=
  let chatId := mm_chatId data in
  match get_chat st chatId with
  | None => (st, [Log (LogRequestingMissed chatId)])
  | Some (_, c) =>
      let missed := missedMessages (messages c) (mm_lastMessageId data) in
      (st, [Log (LogRequestingMissed chatId);
            Emit (ToSocket (sock_id sk)) (MissedMessages chatId missed);
            Log (LogSentMissed (length missed))])
  end.

(** The three asynchronous handlers await their saves without
    interruption. *)
Definition save_chat (env : io_env) (sk : socket) (chatId : string)
    (st : state) : state * list output :=
  match get_chat st chatId with
  | Some (l, c) =>
      let '(result, out) := saveChatToDatabase env l c in
      (st, [Log (LogManualSave chatId)] ++ out
           ++ [Emit (ToSocket (sock_id sk)) (ChatSaved chatId (success result) None)])
  | None =>
      (st, [Log (LogManualSave chatId);
            Emit (ToSocket (sock_id sk))
                 (ChatSaved chatId false (Some "Chat not found"))])
  end.

Definition close_chat (env : io_env) (sk : socket) (chatId : string)
    (st : state) : state * list output :=
  match get_chat st chatId with
  | Some (l, c) =>
      let out := snd (saveChatToDatabase env l c) in
      let st1 :=
        match chatSaveTimers st !! chatId with
        | Some timer =>
            set_chatSaveTimers (delete chatId (chatSaveTimers st))
              (set_timers (delete timer (timers st)) (next_timer st) st)
        | None => st
        end in
      let st2 := set_activeChats (delete chatId (activeChats st1)) st1 in
      (set_chatLastActivity (delete chatId (chatLastActivity st2)) st2,
       [Log (LogClosing chatId)] ++ out
       ++ [Emit (Room chatId) (ChatClosed chatId); Log (LogClosed chatId)])
  | None => (st, [Log (LogClosing chatId)])
  end.

Definition disconnect_save (envs : string → io_env) (agentName : jsval)
    (h : gmap loc chat) (entry : string * loc) : list output :=
  match h !! entry.2 with
  | Some c =>
      if bool_decide (agent c = agentName)
         && Z.ltb 0 (Z.of_nat (length (messages c)))
      then Log (LogAutoSaveDisconnect (chatroom_id c))
           :: snd (saveChatToDatabase (envs entry.1) entry.2 c)
      else []
  | None => []
  end.

Definition disconnect_notify (sk : socket) (h : gmap loc chat)
    (entry : string * loc) : list output :=
  match h !! entry.2 with
  | Some c =>
      if String.eqb (socketId c) (sock_id sk)
      then [Log (LogUserDisconnected entry.1);
            Emit (BroadcastExcept (sock_id sk))
                 (CustomerDisconnected entry.1 (userName c))]
      else []
  | None => []
  end.

Definition on_disconnect (envs : string → io_env) (sk : socket) (st : state)
  : state * list output :=
  let st1 := set_socketOrigins (delete (sock_id sk) (socketOrigins st)) st in
  let entries := map_to_list (activeChats st1) in
  let '(st2, out) :=
    match connectedAgents st1 !! sock_id sk with
    | Some a =>
        (set_connectedAgents (delete (sock_id sk) (connectedAgents st1)) st1,
         Log (LogAgentDisconnected (ac_agentName a))
         :: concat (map (disconnect_save envs (ac_agentName a) (heap st1)) entries))
    | None => (st1, [])
    end in
  (st2, [Log (LogDisconnected (sock_id sk))] ++ out
        ++ concat (map (disconnect_notify sk (heap st2)) entries)).

(** ** Events *)

Inductive event :=
  | OnUserJoinChat (data : user_join_data)
  | OnUserMessage (data : user_message_data)
  | OnUserTyping (chatId : string)
  | OnUserStopTyping (chatId : string)
  | OnJoinAsAgent (data : join_agent_data)
  | OnMessageFromAgent (data : agent_message_data)
  | OnAgentTyping (chatId : string)
  | OnAgentStopTyping (chatId : string)
  | OnUpdateUserInfo (data : user_info_data)
  | OnRequestMissedMessages (data : missed_data)
  | OnSaveChat (chatId : string)
  | OnCloseChat (chatId : string)
  | OnDisconnect.

(** The session id an inbound event refers to, if any. *)
Definition event_chatId (e : event) : option string :=
  match e with
  | OnUserMessage d => Some (um_chatId d)
  | OnUserTyping c | OnUserStopTyping c
  | OnAgentTyping c | OnAgentStopTyping c
  | OnSaveChat c | OnCloseChat c => Some c
  | OnMessageFromAgent d => Some (am_chatId d)
  | OnUpdateUserInfo d => Some (ui_chatId d)
  | OnRequestMissedMessages d => Some (mm_chatId d)
  | OnUserJoinChat _ | OnJoinAsAgent _ | OnDisconnect => None
  end.

(** Dispatch of one inbound event of connection [sk]. *)
Definition handle (envs : string → io_env) (sk : socket) (rt : runtime)
    (e : event) (st : state) : state * list output :=
  match e with
  | OnUserJoinChat d => user_join_chat sk rt d st
  | OnUserMessage d => user_message sk rt d st
  | OnUserTyping c => user_typing sk c st
  | OnUserStopTyping c => user_stop_typing sk c st
  | OnJoinAsAgent d => join_as_agent sk rt d st
  | OnMessageFromAgent d => message_from_agent sk rt d st
  | OnAgentTyping c => agent_typing sk c st
  | OnAgentStopTyping c => agent_stop_typing sk c st
  | OnUpdateUserInfo d => update_user_info sk d st
  | OnRequestMissedMessages d => request_missed_messages sk d st
  | OnSaveChat c => save_chat (envs c) sk c st
  | OnCloseChat c => close_chat (envs c) sk c st
  | OnDisconnect => on_disconnect envs sk st
  end.

End Handlers.

(** ** Interleaving one save with inbound events

    While a save is suspended at an [await], the event loop may deliver
    inbound events; their handlers run to completion against the shared
    state.  A schedule says, step by step, whether the next thing to
    happen is the delivery of an event or the settling of the promise
    the save is waiting for. *)

Inductive tick :=
  | Deliver (sk : socket) (rt : runtime) (e : event)
  | Settle.

Fixpoint run_during_save (AGENT_ORIGINS : list string) (envs : string → io_env)
    (env : io_env) (schedule : list tick) (st : state) (t : save_task)
  : state * save_task * list output :=
  match schedule with
  | [] => (st, t, [])
  | Deliver sk rt e :: rest =>
      let '(st1, o1) := handle AGENT_ORIGINS envs sk rt e st in
      let '(st2, t2, o2) := run_during_save AGENT_ORIGINS envs env rest st1 t in
      (st2, t2, o1 ++ o2)
  | Settle :: rest =>
      let '(t1, o1) := save_resume env (heap st) t in
      let '(st2, t2, o2) := run_during_save AGENT_ORIGINS envs env rest st t1 in
      (st2, t2, o1 ++ o2)
  end.

(** ** Reading the effects *)

(** The records handed to the remote store or to the fallback file. *)
Definition record_of (o : output) : option persisted :=
  match o with
  | Io (HttpPost _ _ body) => Some body
  | Io (WriteFile _ content) => Some content
  | _ => None
  end.

Definition records_of (out : list output) : list persisted :=
  omap record_of out.

Definition posted_of (o : output) : option persisted :=
  match o with
  | Io (HttpPost _ _ body) => Some body
  | _ => None
  end.

Definition written_of (o : output) : option (fallback_file * persisted) :=
  match o with
  | Io (WriteFile f content) => Some (f, content)
  | _ => None
  end.

(** The calls of [saveChatToDatabase], by the id each announces. *)
Definition save_started (o : output) : option string :=
  match o with
  | Log (LogSaving id) => Some id
  | _ => None
  end.

Definition saves_started (out : list output) : list string :=
  omap save_started out.

Definition is_agent_joined (chatId : string) (o : output) : bool :=
  match o with
  | Emit _ (AgentJoined c _) => String.eqb c chatId
  | _ => false
  end.

Definition agent_joined_count (chatId : string) (out : list output) : nat :=
  length (List.filter (is_agent_joined chatId) out).

Definition is_emit (o : output) : bool :=
  match o with Emit _ _ => true | _ => false end.

Definition is_error_emit (o : output) : bool :=
  match o with Emit _ (ErrorMsg _) => true | _ => false end.

(** An observable not-found outcome for [chatId]: the console line, or
    the failure reply of a manual save. *)
Definition is_not_found (chatId : string) (o : output) : bool :=
  match o with
  | Log (LogChatNotFound c) => String.eqb c chatId
  | Emit _ (ChatSaved c false (Some "Chat not found")) => String.eqb c chatId
  | _ => false
  end.

(** The agent field of the session registered under [chatId]. *)
Definition agent_of (st : state) (chatId : string) : option jsval :=
  (λ lc : loc * chat, agent lc.2) <$> get_chat st chatId.

Definition messages_of (st : state) (chatId : string) : option (list message) :=
  (λ lc : loc * chat, messages lc.2) <$> get_chat st chatId.

(** Several agent sends, one after the other. *)
Fixpoint agent_sends (sends : list (socket * runtime * agent_message_data))
    (st : state) : state * list output :=
  match sends with
  | [] => (st, [])
  | (sk, rt, d) :: rest =>
      let '(st1, o1) := message_from_agent sk rt d st in
      let '(st2, o2) := agent_sends rest st1 in
      (st2, o1 ++ o2)
  end.

(** Registry entries point at live objects that carry their own key. *)
Definition wf (st : state) : Prop :=
  map_Forall (λ k l, chatroom_id <$> heap st !! l = Some k) (activeChats st).

(** ** Definitions used to state the properties *)

(** The [chatData] a suspended save is working on. *)
Definition task_cd (t : save_task) : option chatData :=
  match t with
  | AwaitFetch cd | AwaitJson cd | AwaitImportFs cd
  | AwaitImportPath cd | AwaitMkdir cd | AwaitWriteFile cd => Some cd
  | Returned _ => None
  end.

(** The chat an iteration of the sweep saves, judged on the state the
    sweep started from. *)
Definition sweep_due (now : Z) (st : state) (entry : string * loc) : option chat :=
  match heap st !! entry.2 with
  | Some c =>
      if truthy (agent c)
         && (Z.ltb 0 (Z.of_nat (length (messages c)))
             && Z.ltb AUTOSAVE_INTERVAL
                      (now - default 0 (chatLastActivity st !! entry.1)))
      then Some c else None
  | None => None
  end.

Definition sweep_stamp (now : Z) (st : state) (entries : list (string * loc))
    (la : gmap string Z) : gmap string Z :=
  fold_left (λ la e, match sweep_due now st e with
                     | Some _ => <[e.1 := now]> la
                     | None => la
                     end)
            entries la.

Definition sweep_outputs (envs : string → io_env) (now : Z) (st : state)
    (entries : list (string * loc)) : list output :=
  concat (map (λ e, match sweep_due now st e with
                    | Some c => (saveChatToDatabase (envs e.1) e.2 c).2
                    | None => []
                    end) entries).

Definition sweep_count (now : Z) (st : state) (entries : list (string * loc)) : nat :=
  length (omap (sweep_due now st) entries).

Definition io_of (o : output) : option io_action :=
  match o with Io a => Some a | _ => None end.

(** Whether the remote write goes through. *)
Definition remote_succeeds (env : io_env) : bool :=
  match api_url env, fetch_settles env with
  | Some _, Some true => json_settles env
  | _, _ => false
  end.

(** ** Sample data for the worked instances *)

Module Sample.

Definition m1 : message := Message "m1" (Some "hello") "user" (Some "Alice") "t1".
Definition m2 : message := Message "m2" (Some "anyone?") "user" (Some "Alice") "t2".
Definition m3 : message := Message "m3" (Some "hi") "agent" (Some "Bob") "t3".

(** A session with one customer message and no agent yet. *)
Definition pending_chat : chat :=
  Chat "c1" (Some "u1") (Some "Alice") "" "" "10.0.0.7" [m1] "t0" "sock-alice" None.

(** The same session after the agent Bob replied. *)
Definition bob_chat : chat :=
  Chat "c1" (Some "u1") (Some "Alice") "" "" "10.0.0.7" [m1; m2; m3] "t0"
       "sock-alice" (Some "Bob").

Definition empty_chat : chat :=
  Chat "c1" (Some "u1") (Some "Alice") "" "" "10.0.0.7" [] "t0" "sock-alice" None.

Definition with_chat (c : chat) : state :=
  State {[ 1%positive := c ]} {[ "c1" := 1%positive ]} ∅ ∅ ∅ ∅ ∅ 0.

(** Bob's session, last active at time 0. *)
Definition bob_state : state :=
  set_chatLastActivity {[ "c1" := 0 ]} (with_chat bob_chat).

Definition customer_socket : socket :=
  Socket "sock-alice" (Some "http://localhost:3000") None (Some "10.0.0.7").

Definition agent_socket : socket :=
  Socket "sock-bob" (Some "https://fantickets.cloud/design/agent-panel/inbox")
         None (Some "10.0.0.9").

Definition rt (id : string) (iso : string) (now : Z) : runtime :=
  Runtime id iso now.

(** No remote store configured; the fallback writes succeed. *)
Definition no_remote : io_env :=
  IoEnv None None None true true true true true 1000.

(** A configured remote store that cannot be reached. *)
Definition unreachable_remote : io_env :=
  IoEnv (Some "https://api.example/chats") None None true true true true true 1000.

(** A configured remote store that accepts the write. *)
Definition remote_ok : io_env :=
  IoEnv (Some "https://api.example/chats") None (Some true) true true true true true 1000.

End Sample.

(** ** The server as a transition system *)

(** Everything that makes the server take a step: a new connection, an
    inbound event of a connection, a pending timer firing, and a tick of
    the sweep's interval. *)
Inductive action :=
  | Connect (sk : socket)
  | Inbound (sk : socket) (rt : runtime) (e : event)
  | TimerFires (env : io_env) (timer : nat)
  | Sweep (now : Z).

Definition perform (AGENT_ORIGINS : list string) (envs : string → io_env)
    (a : action) (st : state) : state * list output :=
  match a with
  | Connect sk => on_connection AGENT_ORIGINS sk st
  | Inbound sk rt e => handle AGENT_ORIGINS envs sk rt e st
  | TimerFires env timer => timer_fires env timer st
  | Sweep now => periodic_sweep envs now st
  end.

Fixpoint run (AGENT_ORIGINS : list string) (envs : string → io_env)
    (acts : list action) (st : state) : state * list output :=
  match acts with
  | [] => (st, [])
  | a :: rest =>
      let '(st1, o1) := perform AGENT_ORIGINS envs a st in
      let '(st2, o2) := run AGENT_ORIGINS envs rest st1 in
      (st2, o1 ++ o2)
  end.

(** [Array.from(activeChats.values())] *)
Definition active_chat_values (st : state) : list chat :=
  omap (λ e : string * loc, heap st !! e.2) (map_to_list (activeChats st)).

(** ** The CORS origin check *)

Inductive cors_result :=
  | CorsAllowed
  | CorsBlocked (origin : string).

Definition allowedOrigins : list string :=
  ["http://localhost:3000"; "http://localhost:5174"].

(** The [origin] callback of the Socket.IO server.  [isSubdomain] is
    the test of the origin against the regular expression
    [/^https:\/\/.*\.your-domain\.com$/]. *)
Definition cors_origin (AGENT_ORIGINS : list string)
    (isSubdomain : string → bool) (origin : jsval) : cors_result :=
  match origin with
  | None => CorsAllowed
  | Some o =>
      if String.eqb o "" then CorsAllowed
      else if existsb (String.eqb o) allowedOrigins
              || isSubdomain o
              || existsb (λ agentOrigin, String.prefix agentOrigin o) AGENT_ORIGINS
      then CorsAllowed
      else CorsBlocked o
  end.

(** ** The status endpoint *)

(** [String(n)] for an integer [n] (below the magnitude at which
    JavaScript switches to exponent notation). *)
Definition number_to_string (n : Z) : string :=
  NilZero.string_of_int (Z.to_int n).

(** What [formatUptime] shows: one of its four templates, with the
    numbers that fill it. *)
Inductive uptime_text :=
  | UptimeDays (days hours minutes : Z)
  | UptimeHours (hours minutes seconds : Z)
  | UptimeMinutes (minutes seconds : Z)
  | UptimeSeconds (seconds : Z).


(** The numbers [formatUptime] computes, for an integer [ms] of magnitude
    at most [MAX_SAFE_INTEGER].  In that range the doubles of the source
    behave as the integers below: [Math.floor(x / d)] is [Z.div] for a
    positive [d], and JavaScript's [%] takes the sign of the dividend, as
    [Z.rem] does.  Beyond that range the source rounds and this
    definition does not describe it. *)
Definition uptime_parts (ms : Z) : uptime_text :=
  let seconds := ms / 1000 in
  let minutes := seconds / 60 in
  let hours := minutes / 60 in
  let days := hours / 24 in
  if Z.ltb 0 days then UptimeDays days (Z.rem hours 24) (Z.rem minutes 60)
  else if Z.ltb 0 hours then UptimeHours hours (Z.rem minutes 60) (Z.rem seconds 60)
  else if Z.ltb 0 minutes then UptimeMinutes minutes (Z.rem seconds 60)
  else UptimeSeconds seconds.

Definition uptime_render (u : uptime_text) : string :=
  match u with
  | UptimeDays d h m =>
      number_to_string d +:+ "d " +:+ number_to_string h +:+ "h "
      +:+ number_to_string m +:+ "m"
  | UptimeHours h m s =>
      number_to_string h +:+ "h " +:+ number_to_string m +:+ "m "
      +:+ number_to_string s +:+ "s"
  | UptimeMinutes m s =>
      number_to_string m +:+ "m " +:+ number_to_string s +:+ "s"
  | UptimeSeconds s => number_to_string s +:+ "s"
  end.

Definition formatUptime (ms : Z) : string :=
  uptime_render (uptime_parts ms).


(** [PORT = process.env.SOCKET_PORT || 4000] *)
Inductive port :=
  | PortNumber (n : Z)
  | PortText (s : string).

Definition PORT_of (SOCKET_PORT : jsval) : port :=
  match SOCKET_PORT with
  | Some s => if String.eqb s "" then PortNumber 4000 else PortText s
  | None => PortNumber 4000
  end.

Record chat_summary := ChatSummary {
  cs_id : string;
  cs_userName : jsval;
  cs_agent : string;
  cs_messageCount : nat;
  cs_createdAt : string;
}.

Record agent_summary := AgentSummary {
  as_name : jsval;
  as_id : jsval;
  as_connectedAt : string;
}.

Record status_data := StatusData {
  sd_status : string;
  sd_uptime : Z;
  sd_uptimeFormatted : string;
  sd_activeChats : nat;
  sd_connectedAgents : nat;
  sd_totalMessages : nat;
  sd_chats : list chat_summary;
  sd_agents : list agent_summary;
  sd_port : port;
  sd_timestamp : string;
}.

Definition summarize_chat (c : chat) : chat_summary :=
  ChatSummary (chatroom_id c) (userName c) (or_else (agent c) "Unassigned")
              (length (messages c)) (createdAt c).

Definition summarize_agent (a : agent_conn) : agent_summary :=
  AgentSummary (ac_agentName a) (ac_agentId a) (ac_connectedAt a).

(** The body of [/api/status]. *)
Definition api_status (PORT : port) (serverStartTime : Z) (rt : runtime)
    (st : state) : status_data :=
  let uptime := date_now rt - serverStartTime in
  StatusData "online" uptime (formatUptime uptime)
             (size (activeChats st)) (size (connectedAgents st))
             (fold_left (λ sum c, (sum + length (messages c))%nat)
                        (active_chat_values st) O)
             (map summarize_chat (active_chat_values st))
             (map (λ e : string * agent_conn, summarize_agent e.2)
                  (map_to_list (connectedAgents st)))
             PORT (iso_now rt).

Inductive http_body :=
  | HtmlBody (html : string)
  | TextBody (text : string)
  | JsonBody (data : status_data).

Record http_response := HttpResponse {
  res_status : Z;
  res_headers : list (string * string);
  res_body : http_body;
}.

(** The [request] handler of the HTTP server.  [status_html] is what
    reading [public/status.html] gives, [None] when the read fails. *)
Definition http_request (PORT : port) (serverStartTime : Z) (rt : runtime)
    (status_html : option string) (url : string) (st : state) : http_response :=
  if String.eqb url "/status" || String.eqb url "/status/" then
    match status_html with
    | Some html => HttpResponse 200 [("Content-Type", "text/html")] (HtmlBody html)
    | None => HttpResponse 404 [("Content-Type", "text/plain")]
                           (TextBody "Status page not found")
    end
  else if String.eqb url "/api/status" then
    HttpResponse 200 [("Content-Type", "application/json");
                      ("Access-Control-Allow-Origin", "*")]
                 (JsonBody (api_status PORT serverStartTime rt st))
  else HttpResponse 404 [("Content-Type", "text/plain")] (TextBody "Not found").

(** ** Numeric ids *)

(** [s.padStart(targetLength, pad)] for a one-character [pad]. *)
Definition padStart (targetLength : nat) (pad : ascii) (s : string) : string :=
  string_of_list_ascii (repeat pad (targetLength - String.length s)) +:+ s.

(** [generateNumericId], given what [Date.now()] returns and the integer
    [Math.floor(Math.random() * 1000)], which lies between 0 and 999. *)
Definition generateNumericId (now : Z) (random1000 : Z) : string :=
  number_to_string now +:+ padStart 3 "0" (number_to_string random1000).

(** A decimal numeral read back as a number. *)
Definition read_number (s : string) : option Z :=
  Z.of_int <$> NilZero.int_of_string s.

(** ** Relations used to state the invariants *)

(** How a chat object may differ from an earlier version of itself:
    identity fields are the same, messages were only added at the end,
    and an agent, once there, is the same. *)
Definition chat_evolves (c c' : chat) : Prop :=
  chatroom_id c' = chatroom_id c
  ∧ userId c' = userId c
  ∧ userIp c' = userIp c
  ∧ createdAt c' = createdAt c
  ∧ socketId c' = socketId c
  ∧ messages c `prefix_of` messages c'
  ∧ (truthy (agent c) = true → agent c' = agent c).

(** Every object of the earlier store is still there, evolved. *)
Definition heap_evolves (st st' : state) : Prop :=
  ∀ l c, heap st !! l = Some c →
         ∃ c', heap st' !! l = Some c' ∧ chat_evolves c c'.

(** * Properties *)

(** ** Array helpers *)

Lemma js_index_last {A} (arr : list A) :
  js_index arr (Z.of_nat (length arr) - 1) = last arr.
Proof.
  unfold js_index. destruct arr as [|x arr]; [reflexivity|].
  destruct (Z.ltb_spec (Z.of_nat (length (x :: arr)) - 1) 0) as [Hlt|_].
  - simpl in Hlt. lia.
  - rewrite last_lookup. f_equal. simpl. lia.
Qed.

Lemma findIndex_from_none {A} (p : A → bool) arr i :
  Forall (λ x, p x = false) arr → findIndex_from p arr i = -1.
Proof.
  intros H. revert i. induction H as [|x arr Hx _ IH]; intros i; simpl.
  - reflexivity.
  - rewrite Hx. apply IH.
Qed.

Lemma findIndex_from_first {A} (p : A → bool) pre x post i :
  Forall (λ y, p y = false) pre → p x = true →
  findIndex_from p (pre ++ x :: post) i = i + Z.of_nat (length pre).
Proof.
  intros Hpre Hx. revert i.
  induction Hpre as [|y pre Hy _ IH]; intros i; simpl.
  - rewrite Hx. lia.
  - rewrite Hy, IH. lia.
Qed.

(** The replay is what follows the first message carrying the id. *)
Lemma missedMessages_after pre m post :
  Forall (λ y, m_id y ≠ m_id m) pre →
  missedMessages (pre ++ m :: post) (Some (m_id m)) = post.
Proof.
  intros Hpre. unfold missedMessages, findIndex, slice_from.
  rewrite findIndex_from_first.
  - destruct (Z.leb_spec 0 (0 + Z.of_nat (length pre))) as [_|Hlt]; [|lia].
    replace (Z.to_nat (0 + Z.of_nat (length pre) + 1)) with (S (length pre)) by lia.
    rewrite cons_middle, app_assoc.
    apply drop_app_length'. rewrite length_app. simpl. lia.
  - eapply Forall_impl; [exact Hpre|]. simpl. intros y Hy.
    apply String.eqb_neq. exact Hy.
  - simpl. apply String.eqb_refl.
Qed.

Lemma missedMessages_absent ms i :
  Forall (λ y, m_id y ≠ i) ms → missedMessages ms (Some i) = [].
Proof.
  intros H. unfold missedMessages, findIndex.
  rewrite findIndex_from_none; [reflexivity|].
  eapply Forall_impl; [exact H|]. simpl. intros y Hy.
  apply String.eqb_neq. exact Hy.
Qed.

Lemma missedMessages_undefined ms : missedMessages ms None = [].
Proof.
  unfold missedMessages, findIndex.
  rewrite findIndex_from_none; [reflexivity|].
  apply Forall_forall. reflexivity.
Qed.

(** ** The persist operation *)

(** Case analysis on everything the environment of a save decides. *)
Ltac case_env env :=
  destruct env as [url key fetched json fs path mk wr clock];
  unfold api_url, bearer_of; simpl;
  try (destruct url as [u|]; [destruct (String.eqb u "")|]);
  try (destruct fetched as [[|]|]);
  try destruct json; try destruct fs; try destruct path;
  try destruct mk; try destruct wr; simpl.

(** A resumed save keeps working on the [chatData] it was started with,
    and whatever it writes is that [chatData] serialised. *)
Lemma save_resume_cd env h t cd :
  task_cd t = Some cd →
  (task_cd (save_resume env h t).1 = Some cd
   ∨ task_cd (save_resume env h t).1 = None)
  ∧ Forall (λ rec, ∃ ms, rec = stringify cd ms)
           (records_of (save_resume env h t).2)
  ∧ omap posted_of (save_resume env h t).2 = [].
Proof.
  intros Ht. destruct t; simpl in Ht; inversion Ht; subst; clear Ht;
    case_env env; repeat split; auto;
    repeat constructor; eauto.
Qed.

Lemma save_resume_returned env h r :
  save_resume env h (Returned r) = (Returned r, []).
Proof. reflexivity. Qed.

Lemma save_resumes_returned env hs r :
  save_resumes env hs (Returned r) = (Returned r, []).
Proof. induction hs as [|h hs IH]; simpl; [reflexivity|]. rewrite IH. reflexivity. Qed.

Lemma records_of_app o1 o2 :
  records_of (o1 ++ o2) = records_of o1 ++ records_of o2.
Proof. apply omap_app. Qed.

Lemma save_resumes_cd env hs : ∀ t cd,
  task_cd t = Some cd →
  Forall (λ rec, ∃ ms, rec = stringify cd ms)
         (records_of (save_resumes env hs t).2)
  ∧ omap posted_of (save_resumes env hs t).2 = [].
Proof.
  induction hs as [|h hs IH]; intros t cd Ht; simpl.
  - split; [constructor|reflexivity].
  - destruct (save_resume_cd env h t cd Ht) as (Hnext & Hrec & Hpost).
    destruct (save_resume env h t) as [t1 o1] eqn:E1. simpl in *.
    destruct (save_resumes env hs t1) as [t2 o2] eqn:E2. simpl.
    rewrite records_of_app, omap_app, Hpost. simpl.
    destruct Hnext as [Hsome|Hnone].
    + destruct (IH t1 cd Hsome) as [IHrec IHpost]. rewrite E2 in *. simpl in *.
      split; [apply Forall_app; auto|assumption].
    + destruct t1; simpl in Hnone; try discriminate.
      rewrite save_resumes_returned in E2. inversion E2; subst.
      split; [rewrite app_nil_r; assumption|reflexivity].
Qed.

Lemma save_begin_cd env l c :
  task_cd (save_begin env l c).1 = Some (build_chatData l c).
Proof. unfold save_begin. destruct (api_url env); reflexivity. Qed.

(** Every record one call hands out, under any interference, is the
    call-time [chatData] with some message list. *)
Lemma save_call_records env l c hs :
  Forall (λ rec, ∃ ms, rec = stringify (build_chatData l c) ms)
         (records_of (save_call env l c hs).2).
Proof.
  unfold save_call. pose proof (save_begin_cd env l c) as Hcd.
  destruct (save_begin env l c) as [t0 o0] eqn:E0. simpl in Hcd.
  destruct (save_resumes_cd env hs t0 _ Hcd) as [Hrec _].
  destruct (save_resumes env hs t0) as [t o]. simpl in *.
  rewrite records_of_app. apply Forall_app. split; [|assumption].
  unfold save_begin in E0. destruct (api_url env); inversion E0; subst; simpl;
    repeat constructor; eauto.
Qed.

(** X1: the body posted to the remote store is serialised before the first
    suspension: it holds the messages of the moment of the call,
    whatever happens to the chat afterwards. *)
Lemma save_call_posted env l c hs :
  omap posted_of (save_call env l c hs).2
  = match api_url env with
    | Some _ => [stringify (build_chatData l c) (messages c)]
    | None => []
    end.
Proof.
  unfold save_call. pose proof (save_begin_cd env l c) as Hcd.
  destruct (save_begin env l c) as [t0 o0] eqn:E0. simpl in Hcd.
  destruct (save_resumes_cd env hs t0 _ Hcd) as [_ Hpost].
  destruct (save_resumes env hs t0) as [t o]. simpl in *.
  rewrite omap_app, Hpost, app_nil_r.
  unfold save_begin in E0. destruct (api_url env); inversion E0; reflexivity.
Qed.

(** Six settled promises always suffice, and with an unchanging chat the
    coroutine does what the uninterrupted reading of the function says. *)
Lemma save_call_uninterrupted env h l c :
  h !! l = Some c →
  save_call env l c (replicate 6 h)
  = (Returned (saveChatToDatabase env l c).1, (saveChatToDatabase env l c).2).
Proof.
  intros Hl.
  assert (Hms : read_messages h l = messages c) by (unfold read_messages; rewrite Hl; reflexivity).
  unfold save_call, save_begin, saveChatToDatabase, save_fallback.
  case_env env; rewrite ?Hms; reflexivity.
Qed.

(** X2: the persist operation is total and reports failure exactly when the
    remote write did not succeed and the fallback did not either. *)
Lemma saveChatToDatabase_success env l c :
  success (saveChatToDatabase env l c).1 = false ↔
  (api_url env = None ∨ fetch_settles env ≠ Some true ∨ json_settles env = false)
  ∧ (import_fs_settles env = false ∨ import_path_settles env = false
     ∨ mkdir_settles env = false ∨ writeFile_settles env = false).
Proof.
  unfold saveChatToDatabase, save_fallback.
  case_env env; split; intros H; try discriminate; try reflexivity;
    try (split; auto; fail); exfalso; destruct H as [H1 H2];
    repeat match goal with
           | H : _ ∨ _ |- _ => destruct H
           end; congruence.
Qed.



(** ** Last-message timestamp *)

Lemma lastMessageAt_last c :
  lastMessageAt c = match last (messages c) with
                    | Some m => m_time m
                    | None => createdAt c
                    end.
Proof. unfold lastMessageAt. rewrite js_index_last. reflexivity. Qed.

(** X26: every record written by one call of the persist operation, by
    the remote write or by the fallback and whatever else happens while
    the call is suspended, carries as [last_message_at] the time of the
    last message the session had when the call was made, and the
    session's creation time when it had none. *)
Theorem last_message_at_is_of_the_call env l c hs :
  Forall (λ rec, p_last_message_at rec
                 = match last (messages c) with
                   | Some m => m_time m
                   | None => createdAt c
                   end)
         (records_of (save_call env l c hs).2).
Proof.
  eapply Forall_impl; [apply save_call_records|].
  simpl. intros rec [ms ->]. simpl. apply lastMessageAt_last.
Qed.

(** The same on the two sample sessions: three messages, and none. *)
Example last_message_at_samples :
  cd_last_message_at (build_chatData 1%positive Sample.bob_chat) = "t3"
  ∧ cd_last_message_at (build_chatData 1%positive Sample.empty_chat) = "t0".
Proof. split; reflexivity. Qed.

(** C10, where the code departs from it: [last_message_at] is computed
    when the save is called, but the fallback file takes its messages
    from the live array when it is written.  No remote store is
    configured and the customer's message [m2] is handled while the
    save waits for [mkdir].  For the session that held [m1] the file
    carries [m1; m2] with the time of [m1] as [last_message_at], not
    that of its final message [m2]; for the session that held nothing
    the file carries [m2] with the creation time as [last_message_at]. *)
Theorem C10_fallback_record_has_stale_last_message_at :
  let schedule :=
    [Settle; Settle;
     Deliver Sample.customer_socket (Sample.rt "m2" "t2" 500)
             (OnUserMessage (UserMessageData "c1" (Some "anyone?") None));
     Settle; Settle] in
  let view (rec : persisted) :=
    (p_last_message_at rec, m_time <$> last (p_messages rec),
     m_id <$> p_messages rec) in
  let during (c : chat) :=
    let started := save_begin Sample.no_remote 1%positive c in
    let r := run_during_save default_AGENT_ORIGINS (λ _, Sample.no_remote)
               Sample.no_remote schedule (Sample.with_chat c) started.1 in
    (r.1.2, view <$> records_of (started.2 ++ r.2)) in
  m_time Sample.m1 = "t1"
  ∧ during Sample.pending_chat
    = (Returned (SaveOk "c1" true), [("t1", Some "t2", ["m1"; "m2"])])
  ∧ createdAt Sample.empty_chat = "t0"
  ∧ during Sample.empty_chat
    = (Returned (SaveOk "c1" true), [("t0", Some "t2", ["m2"])]).
Proof. vm_compute. repeat split; reflexivity. Qed.

(** ** Missed-message replay *)

(** C8: on a session whose messages are [m1; m2; m3], a request with
    [lastMessageId = m1.id] is answered with exactly [m2; m3]; on any
    session, a request whose id no message carries is answered with the
    empty list. *)
Theorem C8_missed_message_replay sk st chatId l c :
  get_chat st chatId = Some (l, c) →
  (∀ m1 m2 m3, messages c = [m1; m2; m3] →
     request_missed_messages sk (MissedData chatId (Some (m_id m1))) st
     = (st, [Log (LogRequestingMissed chatId);
             Emit (ToSocket (sock_id sk)) (MissedMessages chatId [m2; m3]);
             Log (LogSentMissed 2)]))
  ∧ (∀ i, Forall (λ m, m_id m ≠ i) (messages c) →
     request_missed_messages sk (MissedData chatId (Some i)) st
     = (st, [Log (LogRequestingMissed chatId);
             Emit (ToSocket (sock_id sk)) (MissedMessages chatId []);
             Log (LogSentMissed 0)])).
Proof.
  intros Hget. split.
  - intros m1 m2 m3 Hms. unfold request_missed_messages. simpl.
    rewrite Hget, Hms.
    pose proof (missedMessages_after [] m1 [m2; m3] (Forall_nil_2 _)) as Hrep.
    simpl in Hrep. rewrite Hrep. reflexivity.
  - intros i Habs. unfold request_missed_messages. simpl.
    rewrite Hget, (missedMessages_absent _ _ Habs). reflexivity.
Qed.

Lemma C8_missed_message_replay_witness :
  request_missed_messages Sample.customer_socket (MissedData "c1" (Some "m1"))
                          Sample.bob_state
  = (Sample.bob_state,
     [Log (LogRequestingMissed "c1");
      Emit (ToSocket "sock-alice") (MissedMessages "c1" [Sample.m2; Sample.m3]);
      Log (LogSentMissed 2)])
  ∧ request_missed_messages Sample.customer_socket (MissedData "c1" (Some "m9"))
                            Sample.bob_state
    = (Sample.bob_state,
       [Log (LogRequestingMissed "c1");
        Emit (ToSocket "sock-alice") (MissedMessages "c1" []);
        Log (LogSentMissed 0)]).
Proof.
  destruct (C8_missed_message_replay Sample.customer_socket Sample.bob_state
              "c1" 1%positive Sample.bob_chat) as [Hafter Habsent].
  - reflexivity.
  - split.
    + apply (Hafter Sample.m1 Sample.m2 Sample.m3). reflexivity.
    + apply Habsent. repeat constructor; discriminate.
Defined.

(** ** Registry lookups across the scheduler *)

Lemma get_chat_Some st k l c :
  get_chat st k = Some (l, c) ↔ activeChats st !! k = Some l ∧ heap st !! l = Some c.
Proof.
  unfold get_chat. split.
  - intros H. apply bind_Some in H as (l' & Hl & H).
    apply bind_Some in H as (c' & Hc & H). inversion H; subst. auto.
  - intros [Hl Hc]. rewrite Hl. simpl. rewrite Hc. reflexivity.
Qed.

Lemma get_chat_unknown st k : activeChats st !! k = None → get_chat st k = None.
Proof. intros H. unfold get_chat. rewrite H. reflexivity. Qed.

Lemma scheduleAutoSave_heap k st : heap (scheduleAutoSave k st) = heap st.
Proof.
  unfold scheduleAutoSave. destruct (get_chat st k) as [[l c]|]; [|reflexivity].
  destruct (truthy (agent c)); reflexivity.
Qed.

Lemma scheduleAutoSave_activeChats k st :
  activeChats (scheduleAutoSave k st) = activeChats st.
Proof.
  unfold scheduleAutoSave. destruct (get_chat st k) as [[l c]|]; [|reflexivity].
  destruct (truthy (agent c)); reflexivity.
Qed.

Lemma scheduleAutoSave_connectedAgents k st :
  connectedAgents (scheduleAutoSave k st) = connectedAgents st.
Proof.
  unfold scheduleAutoSave. destruct (get_chat st k) as [[l c]|]; [|reflexivity].
  destruct (truthy (agent c)); reflexivity.
Qed.

Lemma get_chat_updateChatActivity now k st k' :
  get_chat (updateChatActivity now k st) k' = get_chat st k'.
Proof.
  unfold updateChatActivity, get_chat.
  rewrite scheduleAutoSave_heap, scheduleAutoSave_activeChats. reflexivity.
Qed.

Lemma get_chat_store st k l c c' :
  get_chat st k = Some (l, c) → get_chat (store l c' st) k = Some (l, c').
Proof.
  intros H. apply get_chat_Some in H as [Hl _]. apply get_chat_Some.
  split; [exact Hl|]. simpl. apply lookup_insert_eq.
Qed.

(** The scheduler never looks at the agent registry. *)
Lemma scheduleAutoSave_set_connectedAgents a k st :
  scheduleAutoSave k (set_connectedAgents a st)
  = set_connectedAgents a (scheduleAutoSave k st).
Proof.
  unfold scheduleAutoSave.
  change (get_chat (set_connectedAgents a st) k) with (get_chat st k).
  destruct (get_chat st k) as [[l c]|]; [|reflexivity].
  destruct (truthy (agent c)); [|reflexivity]. simpl.
  destruct (chatSaveTimers st !! k); reflexivity.
Qed.

(** ** Who may send as an agent *)

(** C1, as the code has it: an agent send on an existing session is
    always processed.  The message is appended with role [agent], the
    agent is assigned when the session had none, and the room multicast
    is emitted, whatever the agent registry holds: replacing
    [connectedAgents] by any other map changes nothing but that map. *)
Theorem C1_agent_send_ignores_registration sk rt d st l c :
  get_chat st (am_chatId d) = Some (l, c) →
  let msg := Message (gen_id rt) (am_content d) "agent" (am_agentName d)
                     (or_else (am_time d) (iso_now rt)) in
  let r := message_from_agent sk rt d st in
  messages_of r.1 (am_chatId d) = Some (messages c ++ [msg])
  ∧ agent_of r.1 (am_chatId d)
    = Some (if truthy (agent c) then agent c else am_agentName d)
  ∧ Emit (Room (am_chatId d)) (NewMessage (am_chatId d) msg) ∈ r.2
  ∧ ∀ agents,
      message_from_agent sk rt d (set_connectedAgents agents st)
      = (set_connectedAgents agents r.1, r.2).
Proof.
  intros Hget msg r. subst r. unfold message_from_agent.
  split; [|split; [|split]].
  - rewrite Hget. unfold messages_of. simpl.
    rewrite get_chat_updateChatActivity.
    erewrite get_chat_store by exact Hget. simpl.
    destruct (truthy (agent c)); reflexivity.
  - rewrite Hget. unfold agent_of. simpl.
    rewrite get_chat_updateChatActivity.
    erewrite get_chat_store by exact Hget. simpl.
    destruct (truthy (agent c)); reflexivity.
  - rewrite Hget. simpl. destruct (truthy (agent c)); simpl;
      repeat (first [apply list_elem_of_here | apply list_elem_of_further]).
  - intros agents.
    change (get_chat (set_connectedAgents agents st) (am_chatId d))
      with (get_chat st (am_chatId d)).
    rewrite Hget. simpl. f_equal.
    unfold updateChatActivity.
    rewrite <- scheduleAutoSave_set_connectedAgents. reflexivity.
Qed.

Lemma C1_agent_send_ignores_registration_witness :
  messages_of
    (message_from_agent Sample.customer_socket (Sample.rt "m2" "t2" 500)
       (AgentMessageData "c1" (Some "I am staff") None (Some "Mallory"))
       (Sample.with_chat Sample.pending_chat)).1 "c1"
  = Some [Sample.m1;
          Message "m2" (Some "I am staff") "agent" (Some "Mallory") "t2"].
Proof.
  apply (C1_agent_send_ignores_registration Sample.customer_socket
           (Sample.rt "m2" "t2" 500)
           (AgentMessageData "c1" (Some "I am staff") None (Some "Mallory"))
           (Sample.with_chat Sample.pending_chat) 1%positive Sample.pending_chat).
  reflexivity.
Defined.

(** Against C1 as written: a connection from a customer origin that
    never joined as an agent (the agent registry is empty) sends
    [message_from_agent]; the message is appended with role [agent] and
    the connection's claimed name becomes the session's agent. *)
Lemma C1_unregistered_connection_sends_as_agent :
  let st := (on_connection default_AGENT_ORIGINS Sample.customer_socket
               (Sample.with_chat Sample.pending_chat)).1 in
  let r := message_from_agent Sample.customer_socket (Sample.rt "m2" "t2" 500)
             (AgentMessageData "c1" (Some "I am staff") None (Some "Mallory")) st in
  isAgentOrigin default_AGENT_ORIGINS Sample.customer_socket = false
  ∧ connectedAgents st !! "sock-alice" = None
  ∧ messages_of r.1 "c1"
    = Some [Sample.m1;
            Message "m2" (Some "I am staff") "agent" (Some "Mallory") "t2"]
  ∧ agent_of r.1 "c1" = Some (Some "Mallory")
  ∧ existsb is_error_emit r.2 = false.
Proof. vm_compute. repeat split; reflexivity. Qed.

(** ** The origin gate *)

(** The origin read back by [join_as_agent] is the one the connection
    presented at the handshake. *)
Lemma on_connection_records AO sk st :
  socketOrigins (on_connection AO sk st).1 !! sock_id sk = Some (origin_of sk).
Proof. simpl. apply lookup_insert_eq. Qed.

(** C4, as the code has it: a connection whose origin (the one presented
    at the handshake and recorded by [on_connection]) is agent-eligible
    and which tries to start a customer chat is refused: an error is
    sent back to it and nothing else happens, the state is exactly what
    it was. *)
Theorem C4_agent_origin_cannot_start_chat AO sk rt d st :
  is_agent_origin AO (origin_of sk) = true →
  user_join_chat AO sk rt d st
  = (st,
     [Log (LogAgentOriginBlocked (sock_id sk));
      Emit (ToSocket (sock_id sk))
           (ErrorMsg "Agent origins cannot create user chats. Please use join_as_agent instead.")]).
Proof.
  intros Hagent. unfold user_join_chat, isAgentOrigin.
  rewrite Hagent. reflexivity.
Qed.

Lemma C4_agent_origin_cannot_start_chat_witness :
  let st := (on_connection default_AGENT_ORIGINS Sample.agent_socket
               initial_state).1 in
  user_join_chat default_AGENT_ORIGINS Sample.agent_socket
    (Sample.rt "c2" "t5" 900) (UserJoinData (Some "u9") (Some "Eve") None None) st
  = (st,
     [Log (LogAgentOriginBlocked "sock-bob");
      Emit (ToSocket "sock-bob")
           (ErrorMsg "Agent origins cannot create user chats. Please use join_as_agent instead.")]).
Proof.
  apply (C4_agent_origin_cannot_start_chat default_AGENT_ORIGINS
           Sample.agent_socket).
  reflexivity.
Defined.

(** Against C4 as written: the same kind of connection continues a
    customer chat.  [user_message] has no origin gate: the message is
    appended to the session and no error is sent. *)
Lemma C4_agent_origin_continues_chat :
  let st := (on_connection default_AGENT_ORIGINS Sample.agent_socket
               (Sample.with_chat Sample.pending_chat)).1 in
  let r := user_message Sample.agent_socket (Sample.rt "m2" "t2" 500)
             (UserMessageData "c1" (Some "anyone?") None) st in
  is_agent_origin default_AGENT_ORIGINS (mjoin (socketOrigins st !! "sock-bob")) = true
  ∧ messages_of st "c1" = Some [Sample.m1]
  ∧ messages_of r.1 "c1" = Some [Sample.m1; Sample.m2]
  ∧ existsb is_error_emit r.2 = false.
Proof. vm_compute. repeat split; reflexivity. Qed.

(** ** Events on unknown sessions *)

(** C7, as the code has it: an inbound event that names a session id
    absent from the registry leaves the whole state unchanged, creates
    no session and persists nothing.  Customer and agent sends log
    "Chat not found" and emit nothing; a manual save answers the caller
    with a failure "Chat not found"; a customer-info update, a replay
    request and a close do nothing further; typing events are relayed to
    the room of that id without looking at the registry. *)
Theorem C7_unknown_session AO envs sk rt e chatId st :
  event_chatId e = Some chatId →
  activeChats st !! chatId = None →
  let r := handle AO envs sk rt e st in
  r.1 = st
  ∧ records_of r.2 = []
  ∧ r.2 = match e with
          | OnUserMessage d =>
              [Log (LogUserMessage chatId (um_content d));
               Log (LogChatNotFound chatId)]
          | OnMessageFromAgent d =>
              [Log (LogAgentMessage chatId (am_content d));
               Log (LogChatNotFound chatId)]
          | OnSaveChat _ =>
              [Log (LogManualSave chatId);
               Emit (ToSocket (sock_id sk))
                    (ChatSaved chatId false (Some "Chat not found"))]
          | OnUpdateUserInfo _ => [Log (LogUpdatingUserInfo chatId)]
          | OnRequestMissedMessages _ => [Log (LogRequestingMissed chatId)]
          | OnCloseChat _ => [Log (LogClosing chatId)]
          | OnUserTyping _ =>
              [Log (LogUserTyping chatId);
               Emit (RoomExcept chatId (sock_id sk)) (UserTyping chatId)]
          | OnUserStopTyping _ =>
              [Log (LogUserStopTyping chatId);
               Emit (RoomExcept chatId (sock_id sk)) (UserStopTyping chatId)]
          | OnAgentTyping _ =>
              [Log (LogAgentTyping chatId);
               Emit (RoomExcept chatId (sock_id sk)) (AgentTyping chatId)]
          | OnAgentStopTyping _ =>
              [Log (LogAgentStopTyping chatId);
               Emit (RoomExcept chatId (sock_id sk)) (AgentStopTyping chatId)]
          | OnUserJoinChat _ | OnJoinAsAgent _ | OnDisconnect => r.2
          end.
Proof.
  intros He Hnone. apply get_chat_unknown in Hnone.
  destruct e; simpl in He; inversion He; subst; clear He; simpl;
    unfold user_message, message_from_agent, update_user_info,
      request_missed_messages, save_chat, close_chat,
      user_typing, user_stop_typing, agent_typing, agent_stop_typing;
    rewrite ?Hnone; repeat split; reflexivity.
Qed.

Lemma C7_unknown_session_witness :
  handle default_AGENT_ORIGINS (λ _, Sample.no_remote) Sample.customer_socket
         (Sample.rt "m2" "t2" 500)
         (OnUserMessage (UserMessageData "gone" (Some "hello?") None))
         (Sample.with_chat Sample.pending_chat)
  = (Sample.with_chat Sample.pending_chat,
     [Log (LogUserMessage "gone" (Some "hello?")); Log (LogChatNotFound "gone")]).
Proof.
  pose proof (C7_unknown_session default_AGENT_ORIGINS (λ _, Sample.no_remote)
                Sample.customer_socket (Sample.rt "m2" "t2" 500)
                (OnUserMessage (UserMessageData "gone" (Some "hello?") None))
                "gone" (Sample.with_chat Sample.pending_chat)
                eq_refl eq_refl) as (Hst & _ & Hout).
  apply injective_projections; [exact Hst|exact Hout].
Defined.

(** Against C7 as written: for a typing event and for a customer-info
    update that name an unknown session the outcome is not a not-found
    result.  The typing event is relayed to the room as usual, and the
    update produces no reply and no "not found" line at all. *)
Lemma C7_unknown_session_without_not_found :
  let envs := λ _ : string, Sample.no_remote in
  let r1 := handle default_AGENT_ORIGINS envs Sample.customer_socket
              (Sample.rt "m2" "t2" 500) (OnUserTyping "gone") initial_state in
  let r2 := handle default_AGENT_ORIGINS envs Sample.customer_socket
              (Sample.rt "m2" "t2" 500)
              (OnUpdateUserInfo (UserInfoData "gone" (Some "Al") None None))
              initial_state in
  activeChats initial_state !! "gone" = None
  ∧ existsb (is_not_found "gone") r1.2 = false
  ∧ Emit (RoomExcept "gone" "sock-alice") (UserTyping "gone") ∈ r1.2
  ∧ existsb (is_not_found "gone") r2.2 = false
  ∧ existsb is_emit r2.2 = false.
Proof.
  vm_compute. repeat split; try reflexivity.
  apply list_elem_of_further, list_elem_of_here.
Qed.

(** ** Agent assignment *)

Lemma agent_joined_count_app k o1 o2 :
  agent_joined_count k (o1 ++ o2) = (agent_joined_count k o1 + agent_joined_count k o2)%nat.
Proof. unfold agent_joined_count. rewrite List.filter_app, length_app. reflexivity. Qed.

(** An agent send never changes the agent of a session that has one,
    and announces no agent for it. *)
Lemma agent_send_assigned sk rt d st k l c :
  get_chat st k = Some (l, c) → truthy (agent c) = true →
  (∃ c', get_chat (message_from_agent sk rt d st).1 k = Some (l, c')
         ∧ agent c' = agent c)
  ∧ agent_joined_count k (message_from_agent sk rt d st).2 = O.
Proof.
  intros Hget Hassigned. unfold message_from_agent.
  destruct (get_chat st (am_chatId d)) as [[l' c0]|] eqn:Hd; simpl.
  - apply get_chat_Some in Hget as [Hkl Hlc].
    pose proof Hd as Hd'. apply get_chat_Some in Hd' as [Hdl Hdc].
    split.
    + rewrite get_chat_updateChatActivity.
      destruct (decide (l' = l)) as [->|Hne].
      * assert (c0 = c) by congruence. subst c0. rewrite Hassigned. simpl.
        eexists. split.
        -- apply get_chat_Some. split; [exact Hkl|]. simpl. apply lookup_insert_eq.
        -- reflexivity.
      * exists c. split; [|reflexivity].
        apply get_chat_Some. split; [exact Hkl|]. simpl.
        rewrite lookup_insert_ne by exact Hne. exact Hlc.
    + destruct (String.eqb_spec (am_chatId d) k) as [Heq|Hne].
      * assert (l' = l) by congruence. subst l'.
        assert (c0 = c) by congruence. subst c0.
        rewrite Hassigned. reflexivity.
      * unfold agent_joined_count. simpl.
        apply String.eqb_neq in Hne.
        destruct (truthy (agent c0)); simpl; rewrite ?Hne; reflexivity.
  - split; [|reflexivity]. exists c. split; [exact Hget|reflexivity].
Qed.

Lemma agent_sends_assigned sends : ∀ st k l c,
  get_chat st k = Some (l, c) → truthy (agent c) = true →
  (∃ c', get_chat (agent_sends sends st).1 k = Some (l, c')
         ∧ agent c' = agent c)
  ∧ agent_joined_count k (agent_sends sends st).2 = O.
Proof.
  induction sends as [|[[sk rt] d] rest IH]; intros st k l c Hget Hassigned; simpl.
  - split; [|reflexivity]. exists c. auto.
  - destruct (agent_send_assigned sk rt d st k l c Hget Hassigned)
      as [(c1 & Hget1 & Hagent1) Hcount1].
    destruct (message_from_agent sk rt d st) as [st1 o1]. simpl in *.
    assert (Hassigned1 : truthy (agent c1) = true) by (rewrite Hagent1; exact Hassigned).
    destruct (IH st1 k l c1 Hget1 Hassigned1) as [(c2 & Hget2 & Hagent2) Hcount2].
    destruct (agent_sends rest st1) as [st2 o2]. simpl in *.
    split.
    + exists c2. split; [exact Hget2|congruence].
    + rewrite agent_joined_count_app, Hcount1, Hcount2. reflexivity.
Qed.

(** The first agent send to a session without an agent. *)
Lemma agent_send_unassigned sk rt d st l c :
  get_chat st (am_chatId d) = Some (l, c) → truthy (agent c) = false →
  (∃ c', get_chat (message_from_agent sk rt d st).1 (am_chatId d) = Some (l, c')
         ∧ agent c' = am_agentName d)
  ∧ agent_joined_count (am_chatId d) (message_from_agent sk rt d st).2 = 1%nat.
Proof.
  intros Hget Hunassigned. unfold message_from_agent. rewrite Hget. simpl.
  rewrite Hunassigned. simpl. split.
  - rewrite get_chat_updateChatActivity. eexists. split.
    + eapply get_chat_store. exact Hget.
    + reflexivity.
  - unfold agent_joined_count. simpl. rewrite String.eqb_refl. reflexivity.
Qed.

(** C5, as the code has it: the first agent send to a session without an
    agent, when it carries a non-empty agent name, sets the agent field
    to that name and announces [agent_joined] exactly once; after it,
    any sequence of further agent sends (by any connection, with any
    name, to any session) leaves this session's agent field as it is and
    announces no [agent_joined] for it. *)
Theorem C5_agent_assignment_once sk rt d st l c sends :
  get_chat st (am_chatId d) = Some (l, c) →
  truthy (agent c) = false →
  truthy (am_agentName d) = true →
  let first := message_from_agent sk rt d st in
  let later := agent_sends sends first.1 in
  agent_of first.1 (am_chatId d) = Some (am_agentName d)
  ∧ agent_joined_count (am_chatId d) first.2 = 1%nat
  ∧ agent_of later.1 (am_chatId d) = Some (am_agentName d)
  ∧ agent_joined_count (am_chatId d) later.2 = O.
Proof.
  intros Hget Hunassigned Hname first later.
  destruct (agent_send_unassigned sk rt d st l c Hget Hunassigned)
    as [(c1 & Hget1 & Hagent1) Hcount1].
  fold first in Hget1, Hcount1.
  assert (Hassigned1 : truthy (agent c1) = true) by (rewrite Hagent1; exact Hname).
  destruct (agent_sends_assigned sends first.1 (am_chatId d) l c1 Hget1 Hassigned1)
    as [(c2 & Hget2 & Hagent2) Hcount2].
  fold later in Hget2, Hcount2.
  unfold agent_of. rewrite Hget1, Hget2. simpl.
  repeat split; congruence.
Qed.

Lemma C5_agent_assignment_once_witness :
  let first := message_from_agent Sample.agent_socket (Sample.rt "m2" "t2" 500)
                 (AgentMessageData "c1" (Some "hi") None (Some "Bob"))
                 (Sample.with_chat Sample.pending_chat) in
  let later := agent_sends
                 [(Sample.agent_socket, Sample.rt "m3" "t3" 600,
                   AgentMessageData "c1" (Some "still there?") None (Some "Carol"))]
                 first.1 in
  agent_of first.1 "c1" = Some (Some "Bob")
  ∧ agent_joined_count "c1" first.2 = 1%nat
  ∧ agent_of later.1 "c1" = Some (Some "Bob")
  ∧ agent_joined_count "c1" later.2 = O.
Proof.
  apply (C5_agent_assignment_once Sample.agent_socket (Sample.rt "m2" "t2" 500)
           (AgentMessageData "c1" (Some "hi") None (Some "Bob"))
           (Sample.with_chat Sample.pending_chat) 1%positive Sample.pending_chat).
  - reflexivity.
  - reflexivity.
  - reflexivity.
Defined.

(** Against C5 as written: the first agent send carries an empty agent
    name.  The agent field is set to the empty string, which the code
    still reads as "no agent", so the second agent send changes the
    agent field again and announces [agent_joined] a second time. *)
Lemma C5_empty_name_assigns_twice :
  let first := message_from_agent Sample.agent_socket (Sample.rt "m2" "t2" 500)
                 (AgentMessageData "c1" (Some "hi") None (Some ""))
                 (Sample.with_chat Sample.pending_chat) in
  let second := message_from_agent Sample.agent_socket (Sample.rt "m3" "t3" 600)
                  (AgentMessageData "c1" (Some "hi again") None (Some "Bob"))
                  first.1 in
  agent_of (Sample.with_chat Sample.pending_chat) "c1" = Some None
  ∧ agent_of first.1 "c1" = Some (Some "")
  ∧ agent_joined_count "c1" first.2 = 1%nat
  ∧ agent_of second.1 "c1" = Some (Some "Bob")
  ∧ agent_joined_count "c1" second.2 = 1%nat.
Proof. vm_compute. repeat split; reflexivity. Qed.

(** ** The periodic sweep *)

Lemma state_eta st : set_chatLastActivity (chatLastActivity st) st = st.
Proof. destruct st. reflexivity. Qed.

Lemma sweep_visit_due envs now st la out n k l :
  la !! k = chatLastActivity st !! k →
  sweep_visit envs now (set_chatLastActivity la st, out, n) (k, l)
  = match sweep_due now st (k, l) with
    | Some c => (set_chatLastActivity (<[k:=now]> la) st,
                 out ++ (saveChatToDatabase (envs k) l c).2, S n)
    | None => (set_chatLastActivity la st, out, n)
    end.
Proof.
  intros Hk. unfold sweep_visit, sweep_due. simpl. rewrite Hk.
  destruct (heap st !! l) as [c|]; [|reflexivity].
  destruct (truthy (agent c)); simpl; [|reflexivity].
  destruct (Z.ltb 0 (Z.of_nat (length (messages c)))
            && Z.ltb AUTOSAVE_INTERVAL (now - default 0 (chatLastActivity st !! k)));
    reflexivity.
Qed.

(** The loop, unrolled: as long as the keys are distinct, every
    iteration decides as it would have on the initial state. *)
Lemma sweep_fold envs now st entries : ∀ la out n,
  NoDup entries.*1 →
  (∀ e, e ∈ entries → la !! e.1 = chatLastActivity st !! e.1) →
  fold_left (sweep_visit envs now) entries (set_chatLastActivity la st, out, n)
  = (set_chatLastActivity (sweep_stamp now st entries la) st,
     out ++ sweep_outputs envs now st entries,
     (n + sweep_count now st entries)%nat).
Proof.
  induction entries as [|[k l] rest IH]; intros la out n Hnd Hagree.
  - simpl. unfold sweep_outputs, sweep_count. simpl.
    rewrite app_nil_r, Nat.add_0_r. reflexivity.
  - rewrite fmap_cons in Hnd. apply NoDup_cons in Hnd as [Hfresh Hnd].
    assert (Hk : la !! k = chatLastActivity st !! k)
      by (apply (Hagree (k, l)); apply list_elem_of_here).
    assert (Hrest : ∀ la' : gmap string Z, (∀ k', k' ≠ k → la' !! k' = la !! k') →
                           ∀ e, e ∈ rest → la' !! e.1 = chatLastActivity st !! e.1).
    { intros la' Hla' e He. rewrite Hla'.
      - apply Hagree. apply list_elem_of_further. exact He.
      - intros Heq. apply Hfresh. apply list_elem_of_fmap. exists e.
        split; [symmetry; exact Heq|exact He]. }
    cbn [fold_left]. rewrite (sweep_visit_due _ _ _ _ _ _ _ _ Hk).
    unfold sweep_stamp, sweep_outputs, sweep_count.
    cbn [fold_left map concat omap].
    destruct (sweep_due now st (k, l)) as [c|] eqn:Hdue.
    + rewrite (IH (<[k:=now]> la)); [|exact Hnd|].
      * unfold sweep_stamp, sweep_outputs, sweep_count.
        rewrite <- app_assoc. f_equal.
        change (list_omap _ _ (sweep_due now st) ((k, l) :: rest))
          with (omap (sweep_due now st) ((k, l) :: rest)).
        cbn [omap list_omap]. rewrite Hdue. cbn [length]. lia.
      * apply Hrest. intros k' Hne. apply lookup_insert_ne. congruence.
    + rewrite (IH la); [|exact Hnd|apply Hrest; auto].
      change (list_omap _ _ (sweep_due now st) ((k, l) :: rest))
        with (omap (sweep_due now st) ((k, l) :: rest)).
      cbn [omap list_omap]. rewrite Hdue. reflexivity.
Qed.

Lemma periodic_sweep_unfold envs now st :
  let entries := map_to_list (activeChats st) in
  (periodic_sweep envs now st).1
  = set_chatLastActivity (sweep_stamp now st entries (chatLastActivity st)) st
  ∧ saves_started (periodic_sweep envs now st).2
    = saves_started (sweep_outputs envs now st entries)
  ∧ records_of (periodic_sweep envs now st).2
    = records_of (sweep_outputs envs now st entries).
Proof.
  intros entries. unfold periodic_sweep. fold entries.
  pose proof (sweep_fold envs now st entries (chatLastActivity st)
                [Log LogSweepRunning] O (NoDup_fst_map_to_list _)
                (λ _ _, eq_refl)) as Hfold.
  rewrite state_eta in Hfold. rewrite Hfold. cbn [fst snd].
  unfold saves_started, records_of. rewrite !omap_app. simpl.
  destruct (sweep_count now st entries); simpl; rewrite ?app_nil_r; auto.
Qed.







Lemma wf_lookup st k l c :
  wf st → activeChats st !! k = Some l → heap st !! l = Some c → chatroom_id c = k.
Proof.
  intros Hwf Hk Hl. specialize (Hwf k l Hk). simpl in Hwf.
  rewrite Hl in Hwf. simpl in Hwf. congruence.
Qed.




Lemma wf_with_chat c : chatroom_id c = "c1" → wf (Sample.with_chat c).
Proof.
  intros Hid k l Hk. simpl in *.
  apply lookup_singleton_Some in Hk as [<- <-].
  rewrite lookup_singleton_eq. simpl. congruence.
Qed.



(** ** Sessions without an agent *)







(** The sample session without an agent, idle for well over five
    minutes, with a customer message arriving: nothing is scheduled and
    the sweep leaves it alone; a manual save writes it as [pending]. *)
(** C9, where the code departs from it: the disconnect of an agent
    saves the sessions whose agent field is strictly equal to the name
    the agent registered with, and does not ask whether that field is
    set.  An agent from an authorised origin joins with an id but no
    name and then disconnects; the sample session, which has one
    customer message and no agent, is persisted, with status [pending]
    and a null agent.  The timer callback and the sweep do test the
    agent field first. *)
Theorem C9_nameless_agent_disconnect_saves_unassigned :
  let envs := λ _ : string, Sample.remote_ok in
  let connected :=
    (on_connection default_AGENT_ORIGINS Sample.agent_socket
       (Sample.with_chat Sample.pending_chat)).1 in
  let joined :=
    (join_as_agent default_AGENT_ORIGINS Sample.agent_socket
       (Sample.rt "x" "t4" 700) (JoinAgentData None (Some "a1")) connected).1 in
  let r := on_disconnect envs Sample.agent_socket joined in
  agent_of joined "c1" = Some None
  ∧ ac_agentName <$> connectedAgents joined !! "sock-bob" = Some None
  ∧ saves_started r.2 = ["c1"]
  ∧ (λ rec : persisted, (p_status rec, p_agent_id rec, m_id <$> p_messages rec))
      <$> records_of r.2
    = [("pending", None, ["m1"])].
Proof. vm_compute. repeat split; reflexivity. Qed.

Example unassigned_session_run :
  let st := (user_message Sample.customer_socket (Sample.rt "m2" "t2" 500)
               (UserMessageData "c1" (Some "anyone?") None)
               (Sample.with_chat Sample.pending_chat)).1 in
  timers st = ∅
  ∧ chatLastActivity st = ∅
  ∧ records_of (periodic_sweep (λ _, Sample.remote_ok) 400000 st).2 = []
  ∧ p_status <$> records_of (save_chat Sample.remote_ok Sample.agent_socket "c1" st).2
    = ["pending"].
Proof. vm_compute. repeat split; reflexivity. Qed.

(** ** Point-in-time snapshots *)

(** X3: the requests of an uninterrupted persist operation, in order: the
    remote write comes first whenever a remote store is configured; the
    fallback directory and file follow only when the remote write did
    not go through, the file being named after the chat id and the clock
    and holding the same record. *)
Lemma saveChatToDatabase_io env l c :
  let record := stringify (build_chatData l c) (messages c) in
  omap io_of (saveChatToDatabase env l c).2
  = match api_url env with
    | Some url => [HttpPost url (bearer_of env) record]
    | None => []
    end
    ++ (if remote_succeeds env then []
        else if import_fs_settles env && import_path_settles env
             then Mkdir "saved_chats"
                  :: (if mkdir_settles env
                      then [WriteFile (FallbackFile (chatroom_id c) (write_clock env))
                                      record]
                      else [])
             else []).
Proof.
  unfold saveChatToDatabase, save_fallback, remote_succeeds.
  case_env env; reflexivity.
Qed.

(** C2, where the code departs from it: a save of the sample session is
    triggered while no remote store is configured, so the call suspends
    at its first dynamic import with the session holding [m1] alone.
    The customer's next message is delivered before the import settles.
    The fallback file that the call then writes holds [m1; m2]: the
    record kept a reference to the live array. *)
Theorem C2_fallback_record_has_later_message :
  let st := Sample.with_chat Sample.pending_chat in
  let started := save_begin Sample.no_remote 1%positive Sample.pending_chat in
  let r := run_during_save default_AGENT_ORIGINS (λ _, Sample.no_remote)
             Sample.no_remote
             [Deliver Sample.customer_socket (Sample.rt "m2" "t2" 500)
                      (OnUserMessage (UserMessageData "c1" (Some "anyone?") None));
              Settle; Settle; Settle; Settle]
             st started.1 in
  get_chat st "c1" = Some (1%positive, Sample.pending_chat)
  ∧ messages Sample.pending_chat = [Sample.m1]
  ∧ r.1.2 = Returned (SaveOk "c1" true)
  ∧ p_messages <$> records_of (started.2 ++ r.2) = [[Sample.m1; Sample.m2]].
Proof. vm_compute. repeat split; reflexivity. Qed.

(** C6, where the code departs from it: the remote store is configured
    but unreachable.  The body posted at the call holds [m1]; the
    customer's next message is delivered while the [fetch] is pending;
    the fallback file written after the [fetch] fails holds [m1; m2],
    which is not the snapshot that was posted. *)
Theorem C6_fallback_differs_from_posted_snapshot :
  let st := Sample.with_chat Sample.pending_chat in
  let started := save_begin Sample.unreachable_remote 1%positive
                            Sample.pending_chat in
  let r := run_during_save default_AGENT_ORIGINS (λ _, Sample.unreachable_remote)
             Sample.unreachable_remote
             [Deliver Sample.customer_socket (Sample.rt "m2" "t2" 500)
                      (OnUserMessage (UserMessageData "c1" (Some "anyone?") None));
              Settle; Settle; Settle; Settle; Settle]
             st started.1 in
  let out := started.2 ++ r.2 in
  r.1.2 = Returned (SaveOk "c1" true)
  ∧ p_messages <$> omap posted_of out = [[Sample.m1]]
  ∧ (λ w : fallback_file * persisted, (w.1, p_messages w.2)) <$> omap written_of out
    = [(FallbackFile "c1" 1000, [Sample.m1; Sample.m2])].
Proof. vm_compute. repeat split; reflexivity. Qed.

(** ** Reachable states are well formed *)

Lemma wf_initial : wf initial_state.
Proof. intros k l Hk. simpl in Hk. rewrite lookup_empty in Hk. discriminate. Qed.

Lemma wf_same st st' :
  heap st' = heap st → activeChats st' = activeChats st → wf st → wf st'.
Proof. unfold wf. intros -> ->. auto. Qed.

Lemma wf_store st l c c' :
  heap st !! l = Some c → chatroom_id c' = chatroom_id c → wf st →
  wf (store l c' st).
Proof.
  intros Hl Hid Hwf k l' Hk. simpl in *. specialize (Hwf k l' Hk). simpl in Hwf.
  destruct (decide (l = l')) as [<-|Hne].
  - rewrite lookup_insert_eq. rewrite Hl in Hwf. simpl in *. congruence.
  - rewrite lookup_insert_ne by exact Hne. exact Hwf.
Qed.

Lemma wf_delete st k :
  wf st → wf (set_activeChats (delete k (activeChats st)) st).
Proof.
  intros Hwf k' l Hk'. simpl in *.
  apply lookup_delete_Some in Hk' as [_ Hk']. exact (Hwf k' l Hk').
Qed.

Lemma wf_updateChatActivity now k st : wf st → wf (updateChatActivity now k st).
Proof.
  apply wf_same; unfold updateChatActivity.
  - rewrite scheduleAutoSave_heap. reflexivity.
  - rewrite scheduleAutoSave_activeChats. reflexivity.
Qed.

Lemma wf_user_join_chat AO sk rt d st : wf st → wf (user_join_chat AO sk rt d st).1.
Proof.
  intros Hwf. unfold user_join_chat. destruct (isAgentOrigin AO sk); [exact Hwf|].
  intros k l Hk. simpl in *.
  destruct (decide (gen_id rt = k)) as [<-|Hne].
  - rewrite lookup_insert_eq in Hk. injection Hk as <-.
    rewrite lookup_insert_eq. reflexivity.
  - rewrite lookup_insert_ne in Hk by exact Hne.
    specialize (Hwf k l Hk). simpl in Hwf.
    rewrite lookup_insert_ne; [exact Hwf|].
    intros <-. destruct (heap st !! fresh (dom (heap st))) as [c|] eqn:Hfresh;
      [|discriminate].
    apply (is_fresh (dom (heap st))). apply elem_of_dom. eauto.
Qed.

(** Every handler keeps the registry well formed. *)
Lemma wf_handle AO envs sk rt e st : wf st → wf (handle AO envs sk rt e st).1.
Proof.
  intros Hwf. destruct e; simpl; try exact Hwf.
  - apply wf_user_join_chat. exact Hwf.
  - unfold user_message.
    destruct (get_chat st (um_chatId data)) as [[l c]|] eqn:Hget; [|exact Hwf].
    apply get_chat_Some in Hget as [_ Hl]. simpl.
    destruct (truthy (agent c)).
    + apply wf_updateChatActivity. eapply wf_store; eauto.
    + eapply wf_store; eauto.
  - unfold join_as_agent. destruct (negb _); exact Hwf.
  - unfold message_from_agent.
    destruct (get_chat st (am_chatId data)) as [[l c]|] eqn:Hget; [|exact Hwf].
    apply get_chat_Some in Hget as [_ Hl]. simpl.
    apply wf_updateChatActivity. eapply wf_store; eauto.
    destruct (negb (truthy (agent c))); reflexivity.
  - unfold update_user_info.
    destruct (get_chat st (ui_chatId data)) as [[l c]|] eqn:Hget; [|exact Hwf].
    apply get_chat_Some in Hget as [_ Hl]. simpl. eapply wf_store; eauto.
  - unfold request_missed_messages.
    destruct (get_chat st (mm_chatId data)) as [[l c]|]; exact Hwf.
  - unfold save_chat. destruct (get_chat st chatId) as [[l c]|]; [|exact Hwf].
    destruct (saveChatToDatabase (envs chatId) l c). exact Hwf.
  - unfold close_chat. destruct (get_chat st chatId) as [[l c]|]; [|exact Hwf].
    simpl. destruct (chatSaveTimers st !! chatId); simpl.
    + eapply wf_same; [| |apply (wf_delete st chatId Hwf)]; reflexivity.
    + eapply wf_same; [| |apply (wf_delete st chatId Hwf)]; reflexivity.
  - unfold on_disconnect. simpl.
    destruct (connectedAgents st !! sock_id sk); exact Hwf.
Qed.

Lemma wf_periodic_sweep envs now st : wf st → wf (periodic_sweep envs now st).1.
Proof.
  intros Hwf. destruct (periodic_sweep_unfold envs now st) as (-> & _).
  exact Hwf.
Qed.

Lemma wf_timer_fires env timer st : wf st → wf (timer_fires env timer st).1.
Proof.
  intros Hwf. unfold timer_fires. destruct (timers st !! timer); exact Hwf.
Qed.

(** * Further properties of the server *)

(** ** What no step ever does to a chat *)

Lemma chat_evolves_refl c : chat_evolves c c.
Proof. unfold chat_evolves. repeat split; auto. Qed.

Lemma chat_evolves_trans c1 c2 c3 :
  chat_evolves c1 c2 → chat_evolves c2 c3 → chat_evolves c1 c3.
Proof.
  intros (H1 & H2 & H3 & H4 & H5 & H6 & H7) (K1 & K2 & K3 & K4 & K5 & K6 & K7).
  unfold chat_evolves. repeat split; try congruence.
  - etransitivity; eassumption.
  - intros Ha. rewrite K7; [auto|]. rewrite H7; auto.
Qed.

Lemma heap_evolves_refl st : heap_evolves st st.
Proof. intros l c Hl. exists c. split; [exact Hl|apply chat_evolves_refl]. Qed.

Lemma heap_evolves_trans st1 st2 st3 :
  heap_evolves st1 st2 → heap_evolves st2 st3 → heap_evolves st1 st3.
Proof.
  intros H12 H23 l c Hl. destruct (H12 l c Hl) as (c2 & Hl2 & He2).
  destruct (H23 l c2 Hl2) as (c3 & Hl3 & He3).
  exists c3. split; [exact Hl3|eapply chat_evolves_trans; eassumption].
Qed.

Lemma heap_evolves_same st st' : heap st' = heap st → heap_evolves st st'.
Proof.
  intros Hh l c Hl. exists c. rewrite Hh. split; [exact Hl|apply chat_evolves_refl].
Qed.

Lemma heap_evolves_store st l c c' :
  heap st !! l = Some c → chat_evolves c c' → heap_evolves st (store l c' st).
Proof.
  intros Hl He l0 c0 Hl0. simpl.
  destruct (decide (l = l0)) as [<-|Hne].
  - exists c'. rewrite lookup_insert_eq. split; [reflexivity|].
    assert (c0 = c) by congruence. subst c0. exact He.
  - exists c0. rewrite lookup_insert_ne by exact Hne.
    split; [exact Hl0|apply chat_evolves_refl].
Qed.

Lemma heap_evolves_heap st st1 st' :
  heap st' = heap st1 → heap_evolves st st1 → heap_evolves st st'.
Proof. intros Hh H l c Hl. rewrite Hh. exact (H l c Hl). Qed.

Lemma updateChatActivity_heap now k st : heap (updateChatActivity now k st) = heap st.
Proof. unfold updateChatActivity. rewrite scheduleAutoSave_heap. reflexivity. Qed.

Lemma chat_evolves_push c m : chat_evolves c (set_messages (messages c ++ [m]) c).
Proof.
  unfold chat_evolves. simpl. repeat split; auto. apply prefix_app_r. reflexivity.
Qed.

Lemma heap_evolves_handle AO envs sk rt e st :
  heap_evolves st (handle AO envs sk rt e st).1.
Proof.
  destruct e; simpl; try apply heap_evolves_refl.
  - unfold user_join_chat. destruct (isAgentOrigin AO sk); [apply heap_evolves_refl|].
    intros l c Hl. exists c. simpl. split; [|apply chat_evolves_refl].
    rewrite lookup_insert_ne; [exact Hl|].
    intros Heq. apply (is_fresh (dom (heap st))). rewrite Heq.
    apply elem_of_dom. eauto.
  - unfold user_message.
    destruct (get_chat st (um_chatId data)) as [[l c]|] eqn:Hget;
      [|apply heap_evolves_refl].
    apply get_chat_Some in Hget as [_ Hl]. simpl.
    eapply heap_evolves_heap.
    + destruct (truthy (agent c)); [apply updateChatActivity_heap|reflexivity].
    + eapply heap_evolves_store; [exact Hl|apply chat_evolves_push].
  - unfold join_as_agent. destruct (negb _); apply heap_evolves_same; reflexivity.
  - unfold message_from_agent.
    destruct (get_chat st (am_chatId data)) as [[l c]|] eqn:Hget;
      [|apply heap_evolves_refl].
    apply get_chat_Some in Hget as [_ Hl]. simpl.
    eapply heap_evolves_heap; [apply updateChatActivity_heap|].
    eapply heap_evolves_store; [exact Hl|].
    destruct (truthy (agent c)) eqn:Ha; simpl.
    + apply chat_evolves_push.
    + unfold chat_evolves. simpl. repeat split; auto;
        try (apply prefix_app_r; reflexivity).
      intros Hyes. congruence.
  - unfold update_user_info.
    destruct (get_chat st (ui_chatId data)) as [[l c]|] eqn:Hget;
      [|apply heap_evolves_refl].
    apply get_chat_Some in Hget as [_ Hl]. simpl.
    eapply heap_evolves_store; [exact Hl|].
    unfold chat_evolves. simpl. repeat split; auto.
  - unfold request_missed_messages.
    destruct (get_chat st (mm_chatId data)) as [[l c]|]; apply heap_evolves_refl.
  - unfold save_chat. destruct (get_chat st chatId) as [[l c]|];
      [|apply heap_evolves_refl].
    destruct (saveChatToDatabase (envs chatId) l c). apply heap_evolves_refl.
  - unfold close_chat. destruct (get_chat st chatId) as [[l c]|];
      [|apply heap_evolves_refl].
    apply heap_evolves_same. simpl.
    destruct (chatSaveTimers st !! chatId); reflexivity.
  - unfold on_disconnect. apply heap_evolves_same. simpl.
    destruct (connectedAgents st !! sock_id sk); reflexivity.
Qed.

Lemma heap_evolves_perform AO envs a st :
  heap_evolves st (perform AO envs a st).1.
Proof.
  destruct a; simpl.
  - apply heap_evolves_same. reflexivity.
  - apply heap_evolves_handle.
  - apply heap_evolves_same. unfold timer_fires.
    destruct (timers st !! timer); reflexivity.
  - apply heap_evolves_same.
    destruct (periodic_sweep_unfold envs now st) as (-> & _). reflexivity.
Qed.

Lemma heap_evolves_run AO envs acts : ∀ st,
  heap_evolves st (run AO envs acts st).1.
Proof.
  induction acts as [|a rest IH]; intros st; simpl.
  - apply heap_evolves_refl.
  - pose proof (heap_evolves_perform AO envs a st) as Hstep.
    destruct (perform AO envs a st) as [st1 o1]. simpl in Hstep.
    specialize (IH st1). destruct (run AO envs rest st1) as [st2 o2].
    simpl in *. eapply heap_evolves_trans; eassumption.
Qed.

(** X6: the agent of a session is assigned at most once.  Once a chat
    object has a non-empty agent, no sequence of connections, inbound
    events, timer firings and sweeps changes it. *)
Theorem agent_never_reassigned AO envs acts st l c :
  heap st !! l = Some c →
  truthy (agent c) = true →
  ∃ c', heap (run AO envs acts st).1 !! l = Some c' ∧ agent c' = agent c.
Proof.
  intros Hl Ha. destruct (heap_evolves_run AO envs acts st l c Hl) as (c' & Hl' & He).
  exists c'. split; [exact Hl'|]. apply He. exact Ha.
Qed.

(** X7: messages are only ever appended.  Across any sequence of server
    steps a chat object keeps its id, creator, address, creation time
    and socket id, and its earlier message list is a prefix of its later
    one: no message is removed, reordered or edited. *)
Theorem messages_append_only AO envs acts st l c :
  heap st !! l = Some c →
  ∃ c', heap (run AO envs acts st).1 !! l = Some c'
        ∧ messages c `prefix_of` messages c'
        ∧ chatroom_id c' = chatroom_id c
        ∧ userId c' = userId c
        ∧ userIp c' = userIp c
        ∧ createdAt c' = createdAt c
        ∧ socketId c' = socketId c.
Proof.
  intros Hl. destruct (heap_evolves_run AO envs acts st l c Hl)
    as (c' & Hl' & H1 & H2 & H3 & H4 & H5 & H6 & _).
  exists c'. repeat split; assumption.
Qed.

Lemma agent_never_reassigned_witness :
  ∃ c', heap (run default_AGENT_ORIGINS (λ _, Sample.no_remote)
                [Inbound Sample.agent_socket (Sample.rt "m4" "t4" 700)
                   (OnMessageFromAgent
                      (AgentMessageData "c1" (Some "taking over") None (Some "Carol")));
                 Sweep 400000]
                Sample.bob_state).1 !! 1%positive = Some c'
        ∧ agent c' = Some "Bob".
Proof.
  apply (agent_never_reassigned default_AGENT_ORIGINS (λ _, Sample.no_remote)
           _ Sample.bob_state 1%positive Sample.bob_chat).
  - reflexivity.
  - reflexivity.
Defined.

Lemma messages_append_only_witness :
  ∃ c', heap (run default_AGENT_ORIGINS (λ _, Sample.no_remote)
                [Inbound Sample.customer_socket (Sample.rt "m4" "t4" 700)
                   (OnUserMessage (UserMessageData "c1" (Some "thanks") None));
                 Inbound Sample.agent_socket (Sample.rt "x" "t5" 800)
                   (OnCloseChat "c1")]
                Sample.bob_state).1 !! 1%positive = Some c'
        ∧ [Sample.m1; Sample.m2; Sample.m3] `prefix_of` messages c'
        ∧ chatroom_id c' = "c1"
        ∧ userId c' = Some "u1"
        ∧ userIp c' = "10.0.0.7"
        ∧ createdAt c' = "t0"
        ∧ socketId c' = "sock-alice".
Proof.
  apply (messages_append_only default_AGENT_ORIGINS (λ _, Sample.no_remote)
           _ Sample.bob_state 1%positive Sample.bob_chat).
  reflexivity.
Defined.

(** ** The registry in reachable states *)

Lemma wf_perform AO envs a st : wf st → wf (perform AO envs a st).1.
Proof.
  intros Hwf. destruct a; simpl.
  - exact Hwf.
  - apply wf_handle. exact Hwf.
  - apply wf_timer_fires. exact Hwf.
  - apply wf_periodic_sweep. exact Hwf.
Qed.

(** X5: in every state the server can reach from its start, each
    registered session id refers to a chat object that exists and whose
    [chatroom_id] is that very id; so two different ids never refer to
    the same chat. *)
Theorem reachable_registry_consistent AO envs acts :
  let st := (run AO envs acts initial_state).1 in
  (∀ k l, activeChats st !! k = Some l →
          ∃ c, heap st !! l = Some c ∧ chatroom_id c = k)
  ∧ (∀ k1 k2 l, activeChats st !! k1 = Some l → activeChats st !! k2 = Some l →
                k1 = k2).
Proof.
  assert (Hwf : ∀ acts st, wf st → wf (run AO envs acts st).1).
  { clear acts. induction acts as [|a rest IH]; intros st Hst; simpl; [exact Hst|].
    pose proof (wf_perform AO envs a st Hst) as Hstep.
    destruct (perform AO envs a st) as [st1 o1]. simpl in Hstep.
    specialize (IH st1 Hstep). destruct (run AO envs rest st1). exact IH. }
  specialize (Hwf acts initial_state wf_initial). simpl.
  set (st := (run AO envs acts initial_state).1) in *.
  assert (Hobj : ∀ k l, activeChats st !! k = Some l →
                        ∃ c, heap st !! l = Some c ∧ chatroom_id c = k).
  { intros k l Hk. specialize (Hwf k l Hk). simpl in Hwf.
    destruct (heap st !! l) as [c|]; [|discriminate].
    exists c. simpl in Hwf. split; congruence. }
  split; [exact Hobj|].
  intros k1 k2 l H1 H2.
  destruct (Hobj k1 l H1) as (c1 & Hc1 & <-).
  destruct (Hobj k2 l H2) as (c2 & Hc2 & <-). congruence.
Qed.

(** X8: only [close_chat] removes a session.  Any other step keeps a
    registered session registered, on the same chat object; the one
    exception is a new customer chat whose generated id collides with
    it, which takes the id over. *)
Theorem only_close_removes_session AO envs a st k l :
  activeChats st !! k = Some l →
  (∀ sk rt, a ≠ Inbound sk rt (OnCloseChat k)) →
  (∀ sk rt d, a = Inbound sk rt (OnUserJoinChat d) → gen_id rt ≠ k) →
  activeChats (perform AO envs a st).1 !! k = Some l.
Proof.
  intros Hk Hclose Hjoin. destruct a as [sk|sk rt e|env timer|now]; simpl.
  - exact Hk.
  - destruct e; simpl; try exact Hk.
    + unfold user_join_chat. destruct (isAgentOrigin AO sk); [exact Hk|]. simpl.
      rewrite lookup_insert_ne; [exact Hk|]. eapply Hjoin. reflexivity.
    + unfold user_message.
      destruct (get_chat st (um_chatId data)) as [[l' c]|]; [|exact Hk]. simpl.
      destruct (truthy (agent c)); [|exact Hk].
      unfold updateChatActivity. rewrite scheduleAutoSave_activeChats. exact Hk.
    + unfold join_as_agent. destruct (negb _); exact Hk.
    + unfold message_from_agent.
      destruct (get_chat st (am_chatId data)) as [[l' c]|]; [|exact Hk]. simpl.
      unfold updateChatActivity. rewrite scheduleAutoSave_activeChats. exact Hk.
    + unfold update_user_info.
      destruct (get_chat st (ui_chatId data)) as [[l' c]|]; exact Hk.
    + unfold request_missed_messages.
      destruct (get_chat st (mm_chatId data)) as [[l' c]|]; exact Hk.
    + unfold save_chat. destruct (get_chat st chatId) as [[l' c]|]; [|exact Hk].
      destruct (saveChatToDatabase (envs chatId) l' c). exact Hk.
    + unfold close_chat. destruct (get_chat st chatId) as [[l' c]|]; [|exact Hk].
      simpl. assert (chatId ≠ k) by (intros ->; eapply Hclose; reflexivity).
      destruct (chatSaveTimers st !! chatId); simpl;
        rewrite lookup_delete_ne by assumption; exact Hk.
    + unfold on_disconnect. simpl.
      destruct (connectedAgents st !! sock_id sk); exact Hk.
  - unfold timer_fires. destruct (timers st !! timer); exact Hk.
  - destruct (periodic_sweep_unfold envs now st) as (-> & _). exact Hk.
Qed.

Lemma only_close_removes_session_witness :
  activeChats (perform default_AGENT_ORIGINS (λ _, Sample.no_remote)
                 (Inbound Sample.customer_socket (Sample.rt "x" "t9" 900) OnDisconnect)
                 Sample.bob_state).1 !! "c1" = Some 1%positive.
Proof.
  apply (only_close_removes_session default_AGENT_ORIGINS (λ _, Sample.no_remote)
           (Inbound Sample.customer_socket (Sample.rt "x" "t9" 900) OnDisconnect)
           Sample.bob_state "c1" 1%positive).
  - reflexivity.
  - intros sk rt. discriminate.
  - intros sk rt d. discriminate.
Defined.

(** ** Joining *)

Lemma fresh_loc_unused st : heap st !! fresh (dom (heap st)) = None.
Proof. apply not_elem_of_dom. apply is_fresh. Qed.

Lemma is_agent_origin_undefined AO : is_agent_origin AO None = false.
Proof. unfold is_agent_origin. induction AO; simpl; auto. Qed.

Lemma join_as_agent_without_origin AO sk rt d st :
  socketOrigins st !! sock_id sk = None →
  join_as_agent AO sk rt d st
  = (st, [Log (LogUnauthorizedAgent None);
          Emit (ToSocket (sock_id sk))
               (ErrorMsg "Unauthorized: Agent connections must come from authorized domains")]).
Proof.
  intros Hnone. unfold join_as_agent. rewrite Hnone. simpl.
  rewrite is_agent_origin_undefined. reflexivity.
Qed.

(** X9: whether a connection may register as an agent is decided by
    the origin recorded when it connected, not by anything in the
    event.  Right after connecting, [join_as_agent] registers the
    connection and sends it every active chat exactly when that origin
    is agent-eligible; otherwise it answers with an error and changes
    nothing.  Once the connection has disconnected its origin record is
    gone and the same request is refused. *)
Theorem join_as_agent_uses_recorded_origin AO envs sk rt d st :
  let st1 := (on_connection AO sk st).1 in
  let r := join_as_agent AO sk rt d st1 in
  let refusal o :=
    [Log (LogUnauthorizedAgent o);
     Emit (ToSocket (sock_id sk))
          (ErrorMsg "Unauthorized: Agent connections must come from authorized domains")] in
  (if isAgentOrigin AO sk
   then connectedAgents r.1 !! sock_id sk
        = Some (AgentConn (ja_agentId d) (ja_agentName d) (sock_id sk)
                          (origin_of sk) (iso_now rt))
        ∧ heap r.1 = heap st ∧ activeChats r.1 = activeChats st
        ∧ r.2 = [Log (LogAgentJoined (ja_agentName d) (ja_agentId d) (origin_of sk));
                 Emit (ToSocket (sock_id sk)) (ActiveChats (active_chat_values st));
                 Log (LogSentActiveChats (length (active_chat_values st))
                                         (ja_agentName d))]
   else r = (st1, refusal (origin_of sk)))
  ∧ join_as_agent AO sk rt d (on_disconnect envs sk st1).1
    = ((on_disconnect envs sk st1).1, refusal None).
Proof.
  simpl. split.
  - unfold join_as_agent, isAgentOrigin. simpl. rewrite lookup_insert_eq. simpl.
    destruct (is_agent_origin AO (origin_of sk)); simpl.
    + rewrite lookup_insert_eq. auto.
    + reflexivity.
  - apply join_as_agent_without_origin. unfold on_disconnect. simpl.
    destruct (connectedAgents st !! sock_id sk); simpl; apply lookup_delete_eq.
Qed.

(** X10: a customer connection that starts a chat gets a new session
    under the generated id: a new chat object with no messages and no
    agent, carrying the supplied customer fields (missing email and
    phone become empty, a missing address becomes "unknown").  Every
    session registered under another id, every existing chat object and
    the scheduler are left as they were; if the generated id was already
    in use, the id now refers to the new session. *)
Theorem user_join_chat_creates_session AO sk rt d st :
  isAgentOrigin AO sk = false →
  let newChat :=
    Chat (gen_id rt) (uj_userId d) (uj_userName d)
         (or_else (uj_userEmail d) "") (or_else (uj_userPhone d) "")
         (or_else (hs_address sk) "unknown") [] (iso_now rt) (sock_id sk) None in
  let r := user_join_chat AO sk rt d st in
  (∃ l, heap st !! l = None ∧ get_chat r.1 (gen_id rt) = Some (l, newChat))
  ∧ (∀ k l c, k ≠ gen_id rt → get_chat st k = Some (l, c) →
               get_chat r.1 k = Some (l, c))
  ∧ (∀ l c, heap st !! l = Some c → heap r.1 !! l = Some c)
  ∧ chatLastActivity r.1 = chatLastActivity st
  ∧ chatSaveTimers r.1 = chatSaveTimers st
  ∧ timers r.1 = timers st
  ∧ connectedAgents r.1 = connectedAgents st
  ∧ r.2 = [Log (LogUserJoined (uj_userName d) (uj_userId d));
           JoinRoom (sock_id sk) (gen_id rt);
           Emit (ToSocket (sock_id sk)) (ChatCreated (gen_id rt));
           Emit (BroadcastExcept (sock_id sk)) (NewChat newChat);
           Log (LogChatCreated (gen_id rt))].
Proof.
  intros Hcustomer. simpl. unfold user_join_chat. rewrite Hcustomer. simpl.
  pose proof (fresh_loc_unused st) as Hfresh.
  assert (Hkeep : ∀ l c, heap st !! l = Some c →
            <[fresh (dom (heap st)) := Chat (gen_id rt) (uj_userId d) (uj_userName d)
                (or_else (uj_userEmail d) "") (or_else (uj_userPhone d) "")
                (or_else (hs_address sk) "unknown") [] (iso_now rt) (sock_id sk) None]>
              (heap st) !! l = Some c).
  { intros l c Hl. rewrite lookup_insert_ne; [exact Hl|]. congruence. }
  repeat apply conj; try reflexivity.
  - exists (fresh (dom (heap st))). split; [exact Hfresh|].
    apply get_chat_Some. simpl. rewrite !lookup_insert_eq. auto.
  - intros k l c Hne Hget. apply get_chat_Some in Hget as [Hk Hl].
    apply get_chat_Some. simpl. rewrite lookup_insert_ne by congruence.
    split; [exact Hk|]. exact (Hkeep l c Hl).
  - exact Hkeep.
Qed.

Lemma user_join_chat_creates_session_witness :
  get_chat (user_join_chat default_AGENT_ORIGINS Sample.customer_socket
              (Sample.rt "c2" "t5" 900)
              (UserJoinData (Some "u2") (Some "Dana") None None)
              Sample.bob_state).1 "c1"
  = Some (1%positive, Sample.bob_chat).
Proof.
  destruct (user_join_chat_creates_session default_AGENT_ORIGINS
              Sample.customer_socket (Sample.rt "c2" "t5" 900)
              (UserJoinData (Some "u2") (Some "Dana") None None)
              Sample.bob_state eq_refl) as (_ & Hothers & _).
  apply Hothers; [discriminate|reflexivity].
Defined.

(** ** Customer sends *)

Lemma updateChatActivity_assigned now k st l c :
  get_chat st k = Some (l, c) → truthy (agent c) = true →
  updateChatActivity now k st
  = set_chatSaveTimers (<[k := next_timer st]> (chatSaveTimers st))
      (set_timers
         (<[next_timer st := Timeout k INACTIVITY_SAVE_DELAY]>
            (match chatSaveTimers st !! k with
             | Some old => delete old (timers st)
             | None => timers st
             end))
         (S (next_timer st))
         (set_chatLastActivity (<[k := now]> (chatLastActivity st)) st)).
Proof.
  intros Hget Ha. unfold updateChatActivity, scheduleAutoSave.
  change (get_chat (set_chatLastActivity (<[k:=now]> (chatLastActivity st)) st) k)
    with (get_chat st k).
  rewrite Hget, Ha. reflexivity.
Qed.

(** X11: a customer send to an existing session appends exactly one
    message at the end of that session: its sender is the payload's
    [sender], or "user" when that is missing or empty, its sender name
    is the session's customer name.  No other chat object, no
    registration and no agent entry changes, and the message is
    multicast to the session's room.  When the session has an agent the
    send also stamps the session's last activity and leaves an
    inactivity timer pending for it. *)
Theorem user_message_appends sk rt d st l c :
  get_chat st (um_chatId d) = Some (l, c) →
  let k := um_chatId d in
  let msg := Message (gen_id rt) (um_content d) (or_else (um_sender d) "user")
                     (userName c) (iso_now rt) in
  let r := user_message sk rt d st in
  get_chat r.1 k = Some (l, set_messages (messages c ++ [msg]) c)
  ∧ (∀ l', l' ≠ l → heap r.1 !! l' = heap st !! l')
  ∧ activeChats r.1 = activeChats st
  ∧ connectedAgents r.1 = connectedAgents st
  ∧ r.2 = [Log (LogUserMessage k (um_content d));
           Emit (Room k) (NewMessage k msg);
           Log (LogMessageSent k)]
  ∧ (truthy (agent c) = true →
     chatLastActivity r.1 !! k = Some (date_now rt)
     ∧ ∃ timer, chatSaveTimers r.1 !! k = Some timer
                ∧ timers r.1 !! timer = Some (Timeout k INACTIVITY_SAVE_DELAY)).
Proof.
  intros Hget k msg r. subst k r. unfold user_message. rewrite Hget. simpl.
  pose proof (get_chat_store st _ l c (set_messages (messages c ++ [msg]) c) Hget)
    as Hstored.
  destruct (truthy (agent c)) eqn:Ha.
  - rewrite (updateChatActivity_assigned _ _ _ l _ Hstored Ha). simpl.
    repeat apply conj; try reflexivity.
    + apply get_chat_Some. apply get_chat_Some in Hstored. exact Hstored.
    + intros l' Hne. apply lookup_insert_ne. congruence.
    + intros _. split; [apply lookup_insert_eq|].
      exists (next_timer st). rewrite !lookup_insert_eq. auto.
  - repeat apply conj; try reflexivity.
    + exact Hstored.
    + intros l' Hne. simpl. apply lookup_insert_ne. congruence.
    + discriminate.
Qed.

Lemma user_message_appends_witness :
  get_chat (user_message Sample.customer_socket (Sample.rt "m2" "t2" 500)
              (UserMessageData "c1" (Some "anyone?") None)
              (Sample.with_chat Sample.pending_chat)).1 "c1"
  = Some (1%positive,
          set_messages [Sample.m1; Sample.m2] Sample.pending_chat).
Proof.
  apply (user_message_appends Sample.customer_socket (Sample.rt "m2" "t2" 500)
           (UserMessageData "c1" (Some "anyone?") None)
           (Sample.with_chat Sample.pending_chat) 1%positive Sample.pending_chat).
  reflexivity.
Defined.

(** ** The inactivity timer *)

(** X12: activity on a session that has an agent debounces its save.
    One activity update stamps the session and leaves a timer pending
    for it, armed with the inactivity delay.  A second update cancels
    that timer and arms a new one, so only the latest is pending; timers
    of other sessions are not touched. *)
Theorem activity_rearms_timer now1 now2 k st l c :
  get_chat st k = Some (l, c) →
  truthy (agent c) = true →
  let st1 := updateChatActivity now1 k st in
  let st2 := updateChatActivity now2 k st1 in
  let first := next_timer st in
  let second := S (next_timer st) in
  chatLastActivity st1 !! k = Some now1
  ∧ chatSaveTimers st1 !! k = Some first
  ∧ timers st1 !! first = Some (Timeout k INACTIVITY_SAVE_DELAY)
  ∧ chatLastActivity st2 !! k = Some now2
  ∧ chatSaveTimers st2 !! k = Some second
  ∧ timers st2 !! second = Some (Timeout k INACTIVITY_SAVE_DELAY)
  ∧ timers st2 !! first = None
  ∧ (∀ h, h ≠ first → h ≠ second → chatSaveTimers st !! k ≠ Some h →
          timers st2 !! h = timers st !! h).
Proof.
  intros Hget Ha st1 st2 first second. subst st1 st2 first second.
  assert (Hst1 := updateChatActivity_assigned now1 k st l c Hget Ha).
  assert (Hget1 : get_chat (updateChatActivity now1 k st) k = Some (l, c))
    by (rewrite get_chat_updateChatActivity; exact Hget).
  rewrite (updateChatActivity_assigned now2 k _ l c Hget1 Ha).
  rewrite Hst1. simpl. rewrite !lookup_insert_eq.
  repeat apply conj; try reflexivity.
  - rewrite lookup_insert_ne by lia. apply lookup_delete_eq.
  - intros h H1 H2 Hold. rewrite lookup_insert_ne by congruence.
    rewrite lookup_delete_ne by congruence.
    rewrite lookup_insert_ne by congruence.
    destruct (chatSaveTimers st !! k) as [old|]; [|reflexivity].
    apply lookup_delete_ne. congruence.
Qed.

Lemma activity_rearms_timer_witness :
  let st2 := updateChatActivity 2000 "c1"
               (updateChatActivity 1000 "c1" Sample.bob_state) in
  chatSaveTimers st2 !! "c1" = Some 1%nat
  ∧ timers st2 !! 1%nat = Some (Timeout "c1" INACTIVITY_SAVE_DELAY)
  ∧ timers st2 !! 0%nat = None.
Proof.
  destruct (activity_rearms_timer 1000 2000 "c1" Sample.bob_state 1%positive
              Sample.bob_chat eq_refl eq_refl)
    as (_ & _ & _ & _ & H5 & H6 & H7 & _).
  exact (conj H5 (conj H6 H7)).
Defined.

(** X13: a timer that was cancelled by later activity never saves.  When
    the handle registered for a session before an activity update comes
    up for firing after it, nothing is persisted and nothing changes. *)
Theorem cancelled_timer_never_saves env now k st l c old :
  get_chat st k = Some (l, c) →
  truthy (agent c) = true →
  chatSaveTimers st !! k = Some old →
  old ≠ next_timer st →
  timer_fires env old (updateChatActivity now k st)
  = (updateChatActivity now k st, []).
Proof.
  intros Hget Ha Hold Hne.
  rewrite (updateChatActivity_assigned now k st l c Hget Ha), Hold.
  unfold timer_fires. simpl.
  rewrite lookup_insert_ne by congruence. rewrite lookup_delete_eq. reflexivity.
Qed.


Lemma cancelled_timer_never_saves_witness :
  let st := updateChatActivity 1000 "c1" Sample.bob_state in
  timer_fires Sample.remote_ok 0%nat (updateChatActivity 2000 "c1" st)
  = (updateChatActivity 2000 "c1" st, []).
Proof.
  apply (cancelled_timer_never_saves Sample.remote_ok 2000 "c1"
           (updateChatActivity 1000 "c1" Sample.bob_state)
           1%positive Sample.bob_chat 0%nat).
  - reflexivity.
  - reflexivity.
  - reflexivity.
  - discriminate.
Defined.


(** ** Customer details *)

Lemma js_or_idem a b : js_or a (js_or a b) = js_or a b.
Proof. unfold js_or. destruct (truthy a); reflexivity. Qed.

Lemma or_else_idem a b : or_else a (or_else a b) = or_else a b.
Proof. unfold or_else. destruct a as [s|]; [destruct (String.eqb s "")|]; reflexivity. Qed.

Lemma store_same st l c : heap st !! l = Some c → store l c st = st.
Proof.
  intros Hl. unfold store, set_heap. rewrite (insert_id _ _ _ Hl).
  destruct st. reflexivity.
Qed.

Lemma store_store st l c c' : store l c' (store l c st) = store l c' st.
Proof. unfold store, set_heap. simpl. rewrite insert_insert_eq. reflexivity. Qed.

(** X15: a customer-info update is partial.  Each of name, email and
    phone is overwritten only when the event carries a non-empty value
    for it and is kept otherwise; messages, agent and identity of the
    session are untouched.  Sending the same update again changes
    nothing more, and an update with no non-empty field leaves the state
    exactly as it was. *)
Theorem update_user_info_partial sk d st l c :
  get_chat st (ui_chatId d) = Some (l, c) →
  let r := update_user_info sk d st in
  (∃ c', get_chat r.1 (ui_chatId d) = Some (l, c')
         ∧ userName c' = (if truthy (ui_userName d) then ui_userName d else userName c)
         ∧ userEmail c' = (if truthy (ui_userEmail d)
                           then default "" (ui_userEmail d) else userEmail c)
         ∧ userPhone c' = (if truthy (ui_userPhone d)
                           then default "" (ui_userPhone d) else userPhone c)
         ∧ messages c' = messages c
         ∧ agent c' = agent c
         ∧ chat_evolves c c')
  ∧ update_user_info sk d r.1 = r
  ∧ (truthy (ui_userName d) = false → truthy (ui_userEmail d) = false →
     truthy (ui_userPhone d) = false → r.1 = st).
Proof.
  intros Hget r. subst r. unfold update_user_info. rewrite Hget. simpl.
  set (c1 := set_user_info (js_or (ui_userName d) (userName c))
                           (or_else (ui_userEmail d) (userEmail c))
                           (or_else (ui_userPhone d) (userPhone c)) c).
  assert (Hor : ∀ a b, or_else a b = if truthy a then default "" a else b).
  { intros [s|] b; simpl; [destruct (String.eqb s "")|]; reflexivity. }
  repeat apply conj.
  - exists c1. repeat apply conj; try reflexivity;
      try (simpl; apply Hor); try (eapply get_chat_store; exact Hget).
  - rewrite (get_chat_store st _ l c c1 Hget). simpl.
    rewrite js_or_idem, !or_else_idem. fold c1. rewrite store_store. reflexivity.
  - intros Hn He Hp. apply get_chat_Some in Hget as [_ Hl].
    assert (c1 = c).
    { subst c1. unfold js_or. rewrite Hn, !Hor, He, Hp. destruct c. reflexivity. }
    rewrite H. apply store_same. exact Hl.
Qed.

Lemma update_user_info_partial_witness :
  let r := update_user_info Sample.customer_socket
             (UserInfoData "c1" None (Some "alice@example.org") (Some ""))
             Sample.bob_state in
  update_user_info Sample.customer_socket
    (UserInfoData "c1" None (Some "alice@example.org") (Some "")) r.1 = r.
Proof.
  apply (update_user_info_partial Sample.customer_socket
           (UserInfoData "c1" None (Some "alice@example.org") (Some ""))
           Sample.bob_state 1%positive Sample.bob_chat).
  reflexivity.
Defined.

(** ** Closing *)



(** ** Disconnecting *)

Lemma elem_of_concat_map {A B} (f : A → list B) (es : list A) (x : B) :
  x ∈ concat (map f es) ↔ ∃ e, e ∈ es ∧ x ∈ f e.
Proof.
  induction es as [|e es IH]; simpl.
  - split; [intros H; inversion H|intros (e & H & _); inversion H].
  - rewrite elem_of_app, IH. split.
    + intros [H|(e' & Hin & H)].
      * exists e. split; [apply list_elem_of_here|exact H].
      * exists e'. split; [apply list_elem_of_further; exact Hin|exact H].
    + intros (e' & Hin & H). apply elem_of_cons in Hin as [->|Hin]; eauto.
Qed.

Lemma disconnect_notify_elem sk h e o :
  o ∈ disconnect_notify sk h e →
  ∃ c, h !! e.2 = Some c ∧ socketId c = sock_id sk
       ∧ (o = Log (LogUserDisconnected e.1)
          ∨ o = Emit (BroadcastExcept (sock_id sk))
                     (CustomerDisconnected e.1 (userName c))).
Proof.
  unfold disconnect_notify. destruct (h !! e.2) as [c|]; [|intros H; inversion H].
  destruct (String.eqb_spec (socketId c) (sock_id sk)) as [Heq|_];
    [|intros H; inversion H].
  intros H. exists c. split; [reflexivity|]. split; [exact Heq|].
  apply elem_of_cons in H as [->|H]; [auto|].
  apply elem_of_cons in H as [->|H]; [auto|inversion H].
Qed.


Lemma saves_started_elem out x : x ∈ saves_started out ↔ Log (LogSaving x) ∈ out.
Proof.
  unfold saves_started. rewrite list_elem_of_omap. split.
  - intros (o & Hin & Ho). destruct o as [| |[]|]; simpl in Ho; try discriminate.
    injection Ho as <-. exact Hin.
  - intros H. exists (Log (LogSaving x)). auto.
Qed.

Lemma records_of_elem out rec :
  rec ∈ records_of out ↔ ∃ o, o ∈ out ∧ record_of o = Some rec.
Proof. unfold records_of. apply list_elem_of_omap. Qed.

(** X17: when a connection that is not a registered agent disconnects,
    nothing is persisted and every session stays as it is: the only
    change to the state is that the connection's origin record is
    dropped.  Agents are told [customer_disconnected] for exactly the
    sessions that connection had started. *)
Theorem customer_disconnect_saves_nothing envs sk st :
  connectedAgents st !! sock_id sk = None →
  let r := on_disconnect envs sk st in
  r.1 = set_socketOrigins (delete (sock_id sk) (socketOrigins st)) st
  ∧ saves_started r.2 = []
  ∧ records_of r.2 = []
  ∧ (∀ k name,
       Emit (BroadcastExcept (sock_id sk)) (CustomerDisconnected k name) ∈ r.2
       ↔ ∃ l c, activeChats st !! k = Some l ∧ heap st !! l = Some c
                ∧ socketId c = sock_id sk ∧ userName c = name).
Proof.
  intros Hnone r. subst r. unfold on_disconnect. simpl. rewrite Hnone. simpl.
  set (notes := concat (map (disconnect_notify sk (heap st))
                            (map_to_list (activeChats st)))).
  assert (Hnotes : ∀ o, o ∈ notes → save_started o = None ∧ record_of o = None).
  { intros o Ho. apply elem_of_concat_map in Ho as (e & _ & Ho).
    apply disconnect_notify_elem in Ho as (c & _ & _ & [->| ->]); auto. }
  repeat apply conj.
  - reflexivity.
  - destruct (saves_started notes) as [|x xs] eqn:E; [reflexivity|].
    assert (Hx : x ∈ saves_started notes) by (rewrite E; apply list_elem_of_here).
    apply saves_started_elem, Hnotes in Hx as [Hx _]. discriminate.
  - destruct (records_of notes) as [|x xs] eqn:E; [reflexivity|].
    assert (Hx : x ∈ records_of notes) by (rewrite E; apply list_elem_of_here).
    apply records_of_elem in Hx as (o & Ho & Hrec).
    apply Hnotes in Ho as [_ Ho]. congruence.
  - intros k name. rewrite elem_of_cons. split.
    + intros [Hbad|Hin]; [discriminate|].
      apply elem_of_concat_map in Hin as ([k' l] & Hin & Ho).
      apply elem_of_map_to_list in Hin.
      apply disconnect_notify_elem in Ho as (c & Hc & Hsock & [Ho|Ho]);
        [discriminate|]. simpl in *. injection Ho as -> ->.
      exists l, c. auto.
    + intros (l & c & Hk & Hl & Hsock & <-). right.
      apply elem_of_concat_map. exists (k, l). split.
      * apply elem_of_map_to_list. exact Hk.
      * unfold disconnect_notify. simpl. rewrite Hl.
        apply String.eqb_eq in Hsock. rewrite Hsock.
        apply list_elem_of_further, list_elem_of_here.
Qed.

Lemma customer_disconnect_saves_nothing_witness :
  let r := on_disconnect (λ _, Sample.remote_ok) Sample.customer_socket
             Sample.bob_state in
  saves_started r.2 = [] ∧ records_of r.2 = []
  ∧ get_chat r.1 "c1" = Some (1%positive, Sample.bob_chat).
Proof.
  destruct (customer_disconnect_saves_nothing (λ _, Sample.remote_ok)
              Sample.customer_socket Sample.bob_state eq_refl)
    as (Hst & Hsaves & Hrecords & _).
  split; [exact Hsaves|]. split; [exact Hrecords|].
  rewrite Hst. reflexivity.
Defined.



(** ** Replay *)

(** X19: the replay answers with the messages that follow the first
    message carrying the requested id, wherever it is in the session;
    asking with the id of the last message, or with no id at all, is
    answered with an empty list.  The state is never changed. *)
Theorem replay_follows_first_match sk st k l c :
  get_chat st k = Some (l, c) →
  (∀ pre m post,
     messages c = pre ++ m :: post →
     Forall (λ y, m_id y ≠ m_id m) pre →
     request_missed_messages sk (MissedData k (Some (m_id m))) st
     = (st, [Log (LogRequestingMissed k);
             Emit (ToSocket (sock_id sk)) (MissedMessages k post);
             Log (LogSentMissed (length post))]))
  ∧ request_missed_messages sk (MissedData k None) st
    = (st, [Log (LogRequestingMissed k);
            Emit (ToSocket (sock_id sk)) (MissedMessages k []);
            Log (LogSentMissed 0)]).
Proof.
  intros Hget. split.
  - intros pre m post Hms Hpre. unfold request_missed_messages. simpl.
    rewrite Hget, Hms, (missedMessages_after pre m post Hpre). reflexivity.
  - unfold request_missed_messages. simpl.
    rewrite Hget, missedMessages_undefined. reflexivity.
Qed.

Lemma replay_follows_first_match_witness :
  request_missed_messages Sample.customer_socket (MissedData "c1" (Some "m2"))
                          Sample.bob_state
  = (Sample.bob_state,
     [Log (LogRequestingMissed "c1");
      Emit (ToSocket "sock-alice") (MissedMessages "c1" [Sample.m3]);
      Log (LogSentMissed 1)]).
Proof.
  destruct (replay_follows_first_match Sample.customer_socket Sample.bob_state
              "c1" 1%positive Sample.bob_chat eq_refl) as [Hafter _].
  apply (Hafter [Sample.m1] Sample.m2 [Sample.m3]).
  - reflexivity.
  - repeat constructor. discriminate.
Defined.

(** ** Origins *)

Lemma prefix_append a : ∀ o, String.prefix a o = true ↔ ∃ rest, o = a +:+ rest.
Proof.
  induction a as [|x a IH]; intros o.
  - split; [|destruct o; reflexivity]. intros _. exists o. reflexivity.
  - destruct o as [|y o]; simpl.
    + split; [discriminate|]. intros [rest H]. discriminate.
    + destruct (Ascii.ascii_dec x y) as [->|Hne].
      * rewrite IH. split; intros [rest H]; exists rest.
        -- rewrite H. reflexivity.
        -- cbn in H. injection H as H. exact H.
      * split; [discriminate|]. intros [rest H]. cbn in H.
        injection H as Hxy _. congruence.
Qed.

Lemma is_agent_origin_Some AO o :
  is_agent_origin AO (Some o)
  = negb (String.eqb o "") && existsb (λ a, String.prefix a o) AO.
Proof.
  unfold is_agent_origin. induction AO as [|a AO IH]; cbn [existsb].
  - rewrite andb_false_r. reflexivity.
  - rewrite IH. simpl. destruct (negb (String.eqb o "")); reflexivity.
Qed.

(** X20: an origin is agent-eligible exactly when it is non-empty and
    begins with one of the configured agent origins; what follows that
    beginning is not looked at.  A missing origin is never eligible. *)
Theorem agent_origin_is_prefix_match AO :
  (∀ o, is_agent_origin AO (Some o) = true
        ↔ o ≠ "" ∧ ∃ a rest, a ∈ AO ∧ o = a +:+ rest)
  ∧ is_agent_origin AO None = false.
Proof.
  split; [|apply is_agent_origin_undefined].
  intros o. rewrite is_agent_origin_Some, andb_true_iff, negb_true_iff,
    String.eqb_neq, existsb_exists.
  split.
  - intros [Hne (a & H1 & H2)]. split; [exact Hne|].
    apply prefix_append in H2 as [rest ->]. exists a, rest.
    split; [apply list_elem_of_In; exact H1|reflexivity].
  - intros [Hne (a & rest & Hin & ->)]. split; [exact Hne|]. exists a.
    split; [apply list_elem_of_In; exact Hin|].
    apply prefix_append. eauto.
Qed.

(** X21: the CORS check never blocks an origin the agent gate accepts,
    and it lets through a request with no origin, which the agent gate
    never accepts.  An origin is blocked only when it is non-empty, is
    none of the two local development origins, fails the subdomain test
    and is not agent-eligible. *)
Theorem cors_admits_agent_origins AO isSubdomain origin :
  (if is_agent_origin AO origin
   then cors_origin AO isSubdomain origin = CorsAllowed
   else True)
  ∧ (if truthy origin then True
     else cors_origin AO isSubdomain origin = CorsAllowed
          ∧ is_agent_origin AO origin = false)
  ∧ match cors_origin AO isSubdomain origin with
    | CorsAllowed => True
    | CorsBlocked o =>
        origin = Some o ∧ o ≠ ""
        ∧ o ≠ "http://localhost:3000" ∧ o ≠ "http://localhost:5174"
        ∧ isSubdomain o = false
        ∧ is_agent_origin AO origin = false
    end.
Proof.
  destruct origin as [o|]; simpl;
    [|rewrite is_agent_origin_undefined; auto].
  rewrite is_agent_origin_Some. unfold cors_origin.
  destruct (String.eqb_spec o "") as [->|Hne]; simpl; [auto|].
  destruct (String.eqb_spec o "http://localhost:3000") as [->|H1]; simpl.
  { destruct (existsb _ AO); auto. }
  destruct (String.eqb_spec o "http://localhost:5174") as [->|H2]; simpl.
  { destruct (existsb _ AO); auto. }
  destruct (isSubdomain o) eqn:Hsub; simpl.
  { destruct (existsb _ AO); auto. }
  destruct (existsb _ AO); simpl; auto.
  repeat split; auto.
Qed.

(** ** Records of a save *)

(** X4: whatever a save writes, remotely or to the fallback and however
    it is interleaved with other events, describes the chat as it was
    when the save was called in everything but the message list: id,
    customer fields, address and socket id are the chat's, the agent id
    is the chat's agent or null when there was none, and the status is
    [closed] exactly when the agent id is not null, [pending]
    otherwise. *)
Theorem record_describes_chat_at_call env l c hs :
  Forall (λ rec,
            p_chatroom_id rec = chatroom_id c
            ∧ p_user_id rec = userId c ∧ p_user_name rec = userName c
            ∧ p_user_email rec = userEmail c ∧ p_user_phone rec = userPhone c
            ∧ p_user_ip rec = userIp c ∧ p_socket_id rec = socketId c
            ∧ (if truthy (agent c)
               then p_agent_id rec = agent c ∧ p_status rec = "closed"
               else p_agent_id rec = None ∧ p_status rec = "pending"))
         (records_of (save_call env l c hs).2).
Proof.
  eapply Forall_impl; [apply save_call_records|].
  simpl. intros rec [ms ->]. simpl. unfold js_or.
  destruct (truthy (agent c)); repeat split; reflexivity.
Qed.

(** ** The status report *)



Example formatUptime_samples :
  formatUptime 93784000 = "1d 2h 3m"
  ∧ formatUptime 7325999 = "2h 2m 5s"
  ∧ formatUptime 61000 = "1m 1s"
  ∧ formatUptime 999 = "0s"
  ∧ formatUptime (-1) = "-1s".
Proof. vm_compute. repeat split; reflexivity. Qed.

Lemma active_chat_values_wf st :
  wf st →
  Forall2 (λ (e : string * loc) c, heap st !! e.2 = Some c ∧ chatroom_id c = e.1)
          (map_to_list (activeChats st)) (active_chat_values st).
Proof.
  intros Hwf. unfold active_chat_values.
  assert (Hall : Forall (λ e : string * loc, chatroom_id <$> heap st !! e.2 = Some e.1)
                        (map_to_list (activeChats st))).
  { apply Forall_forall. intros [k l] Hin. apply elem_of_map_to_list in Hin.
    exact (Hwf k l Hin). }
  induction Hall as [|e es He _ IH]; simpl; [constructor|].
  apply fmap_Some in He as (c & Hc & Hid). rewrite Hc.
  constructor; [split; auto|exact IH].
Qed.

Lemma summary_ids (h : gmap loc chat) (es : list (string * loc)) (cs : list chat) :
  Forall2 (λ (e : string * loc) c, h !! e.2 = Some c ∧ chatroom_id c = e.1) es cs →
  map (λ c, cs_id (summarize_chat c)) cs = es.*1.
Proof.
  induction 1 as [|e c es cs [_ Hid] _ IH]; [reflexivity|].
  rewrite fmap_cons. simpl in *. f_equal; assumption.
Qed.

Lemma fold_left_sum_lengths (cs : list chat) n :
  fold_left (λ sum c, (sum + length (messages c))%nat) cs n
  = (n + sum_list (map (λ c, length (messages c)) cs))%nat.
Proof.
  revert n. induction cs as [|c cs IH]; intros n; simpl; [lia|].
  rewrite IH. lia.
Qed.

(** X23: the status report is consistent with the state it is taken
    from.  In a reachable state it lists one summary per registered
    session, each under the session's id, and one per registered agent;
    the counts it gives are the lengths of those lists; the message
    total is the sum of the per-session message counts; and the agent
    shown for a session is its agent, or "Unassigned" when it has none,
    never an empty text. *)
Theorem api_status_consistent PORT serverStartTime rt st :
  wf st →
  let d := api_status PORT serverStartTime rt st in
  sd_activeChats d = length (sd_chats d)
  ∧ sd_connectedAgents d = length (sd_agents d)
  ∧ sd_totalMessages d = sum_list (map cs_messageCount (sd_chats d))
  ∧ map cs_id (sd_chats d) = (map_to_list (activeChats st)).*1
  ∧ (∀ k l c, activeChats st !! k = Some l → heap st !! l = Some c →
              ChatSummary k (userName c)
                          (if truthy (agent c) then default "" (agent c)
                           else "Unassigned")
                          (length (messages c)) (createdAt c) ∈ sd_chats d)
  ∧ Forall (λ s, cs_agent s ≠ "") (sd_chats d)
  ∧ sd_uptime d = date_now rt - serverStartTime.
Proof.
  intros Hwf d. subst d. unfold api_status. simpl.
  pose proof (active_chat_values_wf st Hwf) as Hvals.
  assert (Hor : ∀ a, or_else a "Unassigned"
                     = if truthy a then default "" a else "Unassigned").
  { intros [s|]; simpl; [destruct (String.eqb s "")|]; reflexivity. }
  repeat apply conj.
  - rewrite length_map, <- (Forall2_length _ _ _ Hvals), length_map_to_list.
    reflexivity.
  - rewrite length_map, length_map_to_list. reflexivity.
  - rewrite fold_left_sum_lengths, map_map. reflexivity.
  - rewrite map_map. exact (summary_ids _ _ _ Hvals).
  - intros k l c Hk Hl.
    assert (Hc : c ∈ active_chat_values st).
    { unfold active_chat_values. apply list_elem_of_omap. exists (k, l).
      split; [apply elem_of_map_to_list; exact Hk|exact Hl]. }
    apply list_elem_of_In, in_map_iff. exists c.
    split; [|apply list_elem_of_In; exact Hc].
    unfold summarize_chat. rewrite Hor.
    rewrite (wf_lookup st k l c Hwf Hk Hl). reflexivity.
  - apply Forall_forall. intros s Hs.
    apply list_elem_of_In, in_map_iff in Hs as (c & <- & _). simpl.
    rewrite Hor. destruct (agent c) as [a|]; simpl; [|discriminate].
    destruct (String.eqb_spec a ""); simpl; [discriminate|assumption].
  - reflexivity.
Qed.

Lemma api_status_consistent_witness :
  let d := api_status (PORT_of None) 0 (Sample.rt "x" "t9" 93784000)
                      Sample.bob_state in
  sd_activeChats d = length (sd_chats d)
  ∧ sd_totalMessages d = sum_list (map cs_messageCount (sd_chats d))
  ∧ map cs_id (sd_chats d) = ["c1"].
Proof.
  destruct (api_status_consistent (PORT_of None) 0 (Sample.rt "x" "t9" 93784000)
              Sample.bob_state (wf_with_chat Sample.bob_chat eq_refl))
    as (H1 & _ & H3 & H4 & _).
  split; [exact H1|]. split; [exact H3|]. rewrite H4. reflexivity.
Defined.

(** ** Numeric ids *)

Lemma number_to_string_inj a b :
  number_to_string a = number_to_string b → a = b.
Proof.
  assert (Hparse : ∀ z, NilZero.int_of_string (number_to_string z) = Some (Z.to_int z)).
  { intros z. unfold number_to_string. apply NilZero.isi.
    - destruct z as [|p|p]; simpl; try discriminate.
      intros [= H]. exact (DecimalPos.Unsigned.to_uint_nonnil p H).
    - destruct z as [|p|p]; simpl; try discriminate.
      intros [= H]. exact (DecimalPos.Unsigned.to_uint_nonnil p H). }
  intros H. apply DecimalZ.to_int_inj.
  pose proof (Hparse a) as Ha. rewrite H, Hparse in Ha. congruence.
Qed.

Lemma append_same_length_inj s1 : ∀ s2 p1 p2,
  String.length p1 = String.length p2 →
  s1 +:+ p1 = s2 +:+ p2 → s1 = s2 ∧ p1 = p2.
Proof.
  assert (Hlen : ∀ a b, String.length (a +:+ b)
                        = (String.length a + String.length b)%nat).
  { induction a as [|x a IH]; intros b; simpl; [reflexivity|]. rewrite IH. reflexivity. }
  induction s1 as [|x s1 IH]; intros [|y s2] p1 p2 Hp H; cbn in H.
  - auto.
  - exfalso. apply (f_equal String.length) in H. simpl in H.
    rewrite ?Hlen in H. simpl in H. lia.
  - exfalso. apply (f_equal String.length) in H. simpl in H.
    rewrite ?Hlen in H. simpl in H. lia.
  - injection H as -> H. destruct (IH s2 p1 p2 Hp H) as [-> ->]. auto.
Qed.

Lemma random_suffix r :
  (0 ≤ r < 1000)%Z →
  String.length (padStart 3 "0" (number_to_string r)) = 3%nat
  ∧ read_number (padStart 3 "0" (number_to_string r)) = Some r.
Proof.
  intros Hr.
  assert (Hall : forallb (λ n : nat,
                   let s := padStart 3 "0" (number_to_string (Z.of_nat n)) in
                   Nat.eqb (String.length s) 3
                   && bool_decide (read_number s = Some (Z.of_nat n)))
                   (seq 0 1000) = true) by (vm_compute; reflexivity).
  rewrite forallb_forall in Hall.
  specialize (Hall (Z.to_nat r)). rewrite Z2Nat.id in Hall by lia.
  apply andb_true_iff in Hall as [H1 H2].
  - split; [apply Nat.eqb_eq; exact H1|apply bool_decide_eq_true in H2; exact H2].
  - apply in_seq. lia.
Qed.

(** X24: numeric ids do not collide by construction: the last three
    characters are the random draw, padded with zeros, and everything
    before them is the clock, so two ids are equal only when both the
    clock value and the draw are. *)
Theorem generateNumericId_injective now r now' r' :
  (0 ≤ r < 1000)%Z → (0 ≤ r' < 1000)%Z →
  generateNumericId now r = generateNumericId now' r' →
  now = now' ∧ r = r'.
Proof.
  intros Hr Hr' Heq. unfold generateNumericId in Heq.
  destruct (random_suffix r Hr) as [Hlen Hread].
  destruct (random_suffix r' Hr') as [Hlen' Hread'].
  apply append_same_length_inj in Heq as [Hnow Hpad]; [|congruence].
  split; [apply number_to_string_inj; exact Hnow|].
  rewrite Hpad in Hread. congruence.
Qed.

Lemma generateNumericId_injective_witness :
  generateNumericId 1730000000000 7 = "1730000000000007"
  ∧ (generateNumericId 1730000000000 7 = generateNumericId 1730000000000 7 →
     1730000000000 = 1730000000000 ∧ 7 = 7).
Proof.
  split; [reflexivity|].
  apply (generateNumericId_injective 1730000000000 7 1730000000000 7); lia.
Defined.

(** ** Manual save *)


